(** * LifeShield backend ([main.py]): feature reconciliation, risk
    interpretation and the three endpoints, as a shallow embedding.

    A one-row [pandas.DataFrame] is an ordered list of labelled cells; the
    request's [features] dict is a finite map; Python floats are the
    kernel's binary64 floats; exceptions and the calls made to the fitted
    artifacts are threaded through a small trace-and-error monad. *)

From Stdlib Require Import Floats ZArith Lia.
From stdpp Require Import gmap strings list pretty.

Set Warnings "-inexact-float".

(** ** Python values, frames, exceptions *)

(** A JSON scalar as it sits in the [features] dict and in a frame cell. *)
Inductive pyval :=
| VNone
| VBool (b : bool)
| VInt (n : Z)
| VFloat (x : float)
| VStr (s : string).

(** A one-row DataFrame: its cells in column order, each with its label. *)
Abbreviation frame := (list (string * pyval)).

(** [df.columns]. *)
Definition columns (df : frame) : list string := df.*1.

(** The dtype of the column pandas builds around one cell: a Python int is
    [int64] when it fits, [uint64] from [2^63] up to [2^64 - 1], and kept as
    an object beyond; [None] and strings are objects. *)
Inductive dtype := bool_ | int64 | uint64 | float64 | object_.

Definition dtype_eqb (t u : dtype) : bool :=
  match t, u with
  | bool_, bool_ | int64, int64 | uint64, uint64
  | float64, float64 | object_, object_ => true
  | _, _ => false
  end.

Definition dtype_of (v : pyval) : dtype :=
  match v with
  | VNone => object_
  | VBool _ => bool_
  | VInt n =>
      if ((- 2 ^ 63 <=? n) && (n <? 2 ^ 63))%Z then int64
      else if ((2 ^ 63 <=? n) && (n <? 2 ^ 64))%Z then uint64
      else object_
  | VFloat _ => float64
  | VStr _ => object_
  end.

(** pandas' [find_common_type] on these dtypes: the dtype they share when
    they are all the same; [object_] as soon as one is, or when [bool_]
    meets a number; [float64] for any other mix of numbers (an array of no
    column is a [float64] array). *)
Definition find_common_type (types : list dtype) : dtype :=
  match types with
  | [] => float64
  | first :: _ =>
      if forallb (dtype_eqb first) types then first
      else if existsb (dtype_eqb object_) types then object_
      else if existsb (dtype_eqb bool_) types then object_
      else float64
  end.

(** The [float64] nearest to an integer, ties to even. *)
Definition float64_of_int (n : Z) : float :=
  SF2Prim (binary_normalize prec emax n 0 false).

(** [astype(t)] on a cell: an integer cell of an array cast to [float64]
    becomes a float; in every other array of a frame the cell is as it was. *)
Definition astype (t : dtype) (v : pyval) : pyval :=
  match t, v with
  | float64, VInt n => VFloat (float64_of_int n)
  | _, _ => v
  end.

(** [df.values] (the single row): one array, of the dtype common to the
    columns. *)
Definition values (df : frame) : list pyval :=
  astype (find_common_type (dtype_of <$> df.*2)) <$> df.*2.

(** A Python exception other than [HTTPException]: its class and [str(e)]. *)
Record exc := Exc { exc_type : string; exc_str : string }.

Inductive http_exception :=
| HTTPException (status_code : Z) (detail : string).

(** What the handler does that is visible outside it: calls into the fitted
    artifacts, and [logger.error]. *)
Inductive event :=
| EvTransform (df : frame)
| EvPredictProba (X : list pyval)
| EvLogError (msg : string).

(** ** The monad: a trace of events and either an exception or a value *)

Definition M (E A : Type) : Type := list event * (E + A).

Definition raise {E A} (e : E) : M E A := ([], inl e).
Definition emit {E} (ev : event) : M E unit := ([ev], inr tt).
Definition lift {E A} (r : E + A) : M E A := ([], r).

#[global] Instance M_ret {E} : MRet (M E) := λ A a, ([], inr a).
#[global] Instance M_bind {E} : MBind (M E) := λ A B f m,
  match m with
  | (t, inl e) => (t, inl e)
  | (t, inr a) => let '(t', r) := f a in (t ++ t', r)
  end.

(** [try: body except Exception as e: handler(e)], the handler running in
    the error type of the caller. *)
Definition try_except {E E' A} (body : M E A) (handler : E → M E' A) : M E' A :=
  match body with
  | (t, inr a) => (t, inr a)
  | (t, inl e) => let '(t', r) := handler e in (t ++ t', r)
  end.

(** ** Artifacts and module-level globals *)

(** The fitted scaler: [feature_names_in_] when it has the attribute, and
    [transform], which returns the one transformed row or raises. *)
Record Scaler := {
  scaler_feature_names_in_ : option (list string);
  transform : frame → exc + list float
}.

(** The fitted classifier: [predict_proba] returns the class probabilities
    of the one row (what [[0]] selects) or raises. *)
Record Model := {
  model_feature_names_in_ : option (list string);
  predict_proba : list pyval → exc + list float
}.

Record globals := {
  model : option Model;
  scaler : option Scaler;
  feature_columns : option (list string)
}.

(** ** pandas and numpy operations the handler uses *)

(** [pd.DataFrame([features])]: one row, one column per key. *)
Definition DataFrame (features : gmap string pyval) : frame :=
  map_to_list features.

(** The cell of a frame under a label (labels of the frame being unique). *)
Definition cell (df : frame) (col : string) : option pyval :=
  (list_find (λ c, c.1 = col) df) ≫= λ '(_, (_, v)), Some v.

(** [df.reindex(columns=cols, fill_value=0)]: the frame laid out on [cols],
    a label the frame lacks filled with [0]; pandas refuses a frame whose
    own labels repeat. *)
Definition reindex (df : frame) (cols : list string) : M exc frame :=
  if decide (NoDup (columns df))
  then mret ((λ c, (c, default (VInt 0) (cell df c))) <$> cols)
  else raise (Exc "ValueError" "cannot reindex on an axis with duplicate labels").

(** [df[col] = v]: every column labelled [col] is overwritten; a label the
    frame lacks is appended as a new last column. *)
Definition setitem (df : frame) (col : string) (v : pyval) : frame :=
  if decide (col ∈ columns df)
  then (λ c, if decide (c.1 = col) then (col, v) else c) <$> df
  else df ++ [(col, v)].

(** [a[:, i]] on the one-row array [a], and [a[i]] on a vector. *)
Definition getcol (a : list float) (i : nat) : M exc float :=
  match a !! i with
  | Some x => mret x
  | None => raise (Exc "IndexError"
      ("index " +:+ pretty i +:+ " is out of bounds for axis 1 with size " +:+ pretty (length a)))
  end.

Definition getitem (a : list float) (i : nat) : M exc float :=
  match a !! i with
  | Some x => mret x
  | None => raise (Exc "IndexError"
      ("index " +:+ pretty i +:+ " is out of bounds for axis 0 with size " +:+ pretty (length a)))
  end.

(** ** [get_risk_metadata] *)

Definition get_risk_metadata (prob : float) : string * float * float * string :=
  let '(level, rec) :=
    if (prob <? 0.3)%float then
      ("Low",
       "Your health indicators look great. Maintain your current lifestyle and regular checkups.")
    else if (prob <? 0.7)%float then
      ("Moderate",
       "Some indicators suggest potential risks. Consider consulting a professional and reviewing your diet/exercise habits.")
    else
      ("High",
       "High-risk indicators detected. We strongly recommend scheduling a comprehensive medical evaluation.") in
  let confidence := (abs (prob - 0.5) * 2)%float in
  let vitality_score := ((1 - prob) * 100)%float in
  (level, confidence, vitality_score, rec).

(** ** Endpoints *)

Record HealthFeatures := { features : gmap string pyval }.

Record PredictionResponse := {
  risk_probability : float;
  risk_level : string;
  confidence : float;
  vitality_score : float;
  recommendation : string
}.

(** [GET /health]. *)
Definition health_check (g : globals) : gmap string pyval :=
  {[ "status" := VStr "healthy";
     "artifacts_loaded" :=
       VBool (bool_decide (model g ≠ None) && bool_decide (scaler g ≠ None)
              && bool_decide (feature_columns g ≠ None)) ]}.

(** The loop [for i, col in enumerate(scaler_features): final_df[col] =
    scaled_features[:, i]], from index [i] on. *)
Fixpoint update_scaled_columns (i : nat) (scaler_features : list string)
    (scaled_features : list float) (final_df : frame) : M exc frame :=
  match scaler_features with
  | [] => mret final_df
  | col :: rest =>
      x ← getcol scaled_features i;
      update_scaled_columns (S i) rest scaled_features (setitem final_df col (VFloat x))
  end.

(** [getattr(scaler, "feature_names_in_", feature_columns)] and the same
    for the model. *)
Definition scaler_features (scaler : Scaler) (feature_columns : list string) : list string :=
  default feature_columns (scaler_feature_names_in_ scaler).

Definition model_features (model : Model) (feature_columns : list string) : list string :=
  default feature_columns (model_feature_names_in_ model).

(** Lines 144-164 of [predict]: from the request's features to [final_df],
    the frame whose [.values] go to the classifier. *)
Definition final_df (model : Model) (scaler : Scaler) (feature_columns : list string)
    (input_data : HealthFeatures) : M exc frame :=
  let input_df := DataFrame (features input_data) in
  let scaler_features := scaler_features scaler feature_columns in
  df_for_scaler ← reindex input_df scaler_features;
  _ ← emit (EvTransform df_for_scaler);
  scaled_features ← lift (transform scaler df_for_scaler);
  let model_features := model_features model feature_columns in
  final_df ← reindex input_df model_features;
  update_scaled_columns 0 scaler_features scaled_features final_df.

Section Predict.

(** Python's built-in [round(x, ndigits)] on floats. *)
Variable round : float → Z → float.

(** [POST /predict]. *)
Definition predict (g : globals) (input_data : HealthFeatures)
    : M http_exception PredictionResponse :=
  match model g, scaler g, feature_columns g with
  | Some model, Some scaler, Some feature_columns =>
      try_except
        (final_df ← final_df model scaler feature_columns input_data;
         _ ← emit (EvPredictProba (values final_df));
         proba ← lift (predict_proba model (values final_df));
         prediction_proba ← getitem proba 1;
         let '(risk_level, confidence, vitality_score, recommendation) :=
           get_risk_metadata prediction_proba in
         mret {| risk_probability := round prediction_proba 4;
                 risk_level := risk_level;
                 confidence := round confidence 4;
                 vitality_score := round vitality_score 2;
                 recommendation := recommendation |})
        (λ e,
          _ ← emit (EvLogError ("Prediction error: " +:+ exc_str e));
          raise (HTTPException 500 ("Prediction failed: " +:+ exc_str e)))
  | _, _, _ => raise (HTTPException 503 "Model artifacts are not loaded.")
  end.

End Predict.

(** ** Vocabulary of the statements *)

(** The aligned row of a request on a schema: the request's value under each
    name of the schema, [0] where the request has none. *)
Definition aligned (m : gmap string pyval) (cols : list string) : frame :=
  (λ c, (c, default (VInt 0) (m !! c))) <$> cols.

(** [k] is the last position of [c] in [cols]. *)
Definition last_index (cols : list string) (c : string) (k : nat) : Prop :=
  cols !! k = Some c ∧ ∀ k', k < k' → cols !! k' ≠ Some c.

(** The components of the tuple [get_risk_metadata] returns. *)
Definition risk_level_of (r : string * float * float * string) : string := r.1.1.1.
Definition confidence_of (r : string * float * float * string) : float := r.1.1.2.

(** The mantissa [2^52] that 0.5, 1.0 and 2.0 share, and the three numbers
    as the specification of binary64 writes them. *)
Definition m52 : positive := 4503599627370496.
Definition SF_half : spec_float := S754_finite false m52 (-53).
Definition SF_one : spec_float := S754_finite false m52 (-52).
Definition SF_two : spec_float := S754_finite false m52 (-51).

(** ** Stand-in artifacts for the worked examples *)

(** How the stand-in artifacts read a cell as a [float64]: [None] as nan, a
    bool as 0 or 1, an integer as the nearest float; they refuse every
    string, with the message [float] has for one that is no number. *)
Definition to_float (v : pyval) : exc + float :=
  match v with
  | VNone => inr nan
  | VBool b => inr (if b then 1 else 0)%float
  | VInt n => inr (SF2Prim (binary_normalize prec emax n 0 false))
  | VFloat x => inr x
  | VStr s => inl (Exc "ValueError" ("could not convert string to float: '" +:+ s +:+ "'"))
  end.

Fixpoint to_floats (vs : list pyval) : exc + list float :=
  match vs with
  | [] => inr []
  | v :: rest =>
      match to_float v, to_floats rest with
      | inr x, inr xs => inr (x :: xs)
      | inl e, _ => inl e
      | _, inl e => inl e
      end
  end.

(** A scaler in the manner of [StandardScaler]: it centres every column on
    40 and divides by 8, and rejects a row holding a non-numeric cell. *)
Definition centre_scale (df : frame) : exc + list float :=
  match to_floats (values df) with
  | inl e => inl e
  | inr xs => inr ((λ x, (x - 40) / 8)%float <$> xs)
  end.

Definition scaler_age_bmi : Scaler :=
  {| scaler_feature_names_in_ := Some ["age"; "bmi"]; transform := centre_scale |}.

(** A scaler whose fitted transform returns one value whatever the row. *)
Definition scaler_narrow : Scaler :=
  {| scaler_feature_names_in_ := Some ["age"; "bmi"];
     transform := λ df, inr [0.625%float] |}.

(** A scaler whose fitted transform returns a value more than its schema. *)
Definition scaler_wide : Scaler :=
  {| scaler_feature_names_in_ := Some ["age"; "bmi"];
     transform := λ df, inr [0.625; -1.5; 7]%float |}.

(** A classifier that answers 0.62 for the positive class on numeric rows. *)
Definition stub_proba (X : list pyval) : exc + list float :=
  match to_floats X with
  | inl e => inl e
  | inr _ => inr [0.38; 0.62]%float
  end.

Definition model_age_gender : Model :=
  {| model_feature_names_in_ := Some ["age"; "gender"]; predict_proba := stub_proba |}.

Definition model_all : Model :=
  {| model_feature_names_in_ := Some ["gender"; "bmi"; "age"; "smoker"];
     predict_proba := stub_proba |}.

Definition loaded (md : Model) (sc : Scaler) : globals :=
  {| model := Some md; scaler := Some sc; feature_columns := Some ["age"; "bmi"; "gender"] |}.

(** The module's globals before [lifespan] has run, and with the scaler
    alone missing. *)
Definition not_loaded : globals :=
  {| model := None; scaler := None; feature_columns := None |}.

Definition scaler_not_loaded : globals :=
  {| model := Some model_all; scaler := None;
     feature_columns := Some ["age"; "bmi"; "gender"] |}.

(** ** Startup: [lifespan] *)

(** An unpickled object, as far as this module looks at one: its class, the
    attributes [predict_proba], [transform] and [feature_names_in_] when it
    has them, and its items when it is a list. *)
Record pyobject := {
  obj_class : string;
  obj_predict_proba : option (list pyval → exc + list float);
  obj_transform : option (frame → exc + list float);
  obj_feature_names_in_ : option (list string);
  obj_items : option (list pyval)
}.

(** [hasattr(o, "predict_proba")] and [isinstance(o, list)]. *)
Definition hasattr_predict_proba (o : pyobject) : bool :=
  bool_decide (obj_predict_proba o ≠ None).

Definition isinstance_list (o : pyobject) : bool :=
  bool_decide (obj_items o ≠ None).

(** [len(o)] of a list. *)
Definition len (o : pyobject) : nat := length (default [] (obj_items o)).

(** The three module-level names as Python holds them: [None] or whatever
    [joblib.load] returned. *)
Record module_globals := {
  g_model : option pyobject;
  g_scaler : option pyobject;
  g_feature_columns : option pyobject
}.

(** What startup does that is visible outside it. *)
Inductive startup_event :=
| SuLoad (path : string)
| SuLogInfo (msg : string)
| SuLogError (msg : string).

(** Startup code: it reads and assigns the globals, leaves a trace, and
    returns or raises. *)
Definition Startup (A : Type) : Type :=
  module_globals → module_globals * list startup_event * (exc + A).

#[global] Instance Startup_ret : MRet Startup := λ A a g, (g, [], inr a).
#[global] Instance Startup_bind : MBind Startup := λ A B f m g,
  match m g with
  | (g', t, inl e) => (g', t, inl e)
  | (g', t, inr a) => let '(g'', t', r) := f a g' in (g'', t ++ t', r)
  end.

Definition su_raise {A} (e : exc) : Startup A := λ g, (g, [], inl e).
Definition su_emit (ev : startup_event) : Startup unit := λ g, (g, [ev], inr tt).
Definition su_assign (f : module_globals → module_globals) : Startup unit :=
  λ g, (f g, [], inr tt).
Definition su_try_except {A} (body : Startup A) (handler : exc → Startup A) : Startup A :=
  λ g, match body g with
       | (g', t, inr a) => (g', t, inr a)
       | (g', t, inl e) => let '(g'', t', r) := handler e g' in (g'', t ++ t', r)
       end.

Section Lifespan.

(** [joblib.load]: what each path unpickles to, or the exception it raises. *)
Variable joblib_load : string → exc + pyobject.

Definition su_load (path : string) : Startup pyobject :=
  λ g, (g, [SuLoad path], joblib_load path).

(** [lifespan] up to its [yield]. *)
Definition lifespan : Startup unit :=
  _ ← su_emit (SuLogInfo "Starting up LifeShield Backend...");
  su_try_except
    (_ ← su_emit (SuLogInfo "Loading model artifacts...");
     model ← su_load "best_model.pkl";
     _ ← su_assign (λ g, {| g_model := Some model; g_scaler := g_scaler g;
                             g_feature_columns := g_feature_columns g |});
     scaler ← su_load "scaler.pkl";
     _ ← su_assign (λ g, {| g_model := g_model g; g_scaler := Some scaler;
                             g_feature_columns := g_feature_columns g |});
     feature_columns ← su_load "feature_columns.pkl";
     _ ← su_assign (λ g, {| g_model := g_model g; g_scaler := g_scaler g;
                             g_feature_columns := Some feature_columns |});
     _ ← (if negb (hasattr_predict_proba model)
          then su_raise (Exc "ValueError" "Loaded model does not support predict_proba")
          else mret tt);
     _ ← (if negb (isinstance_list feature_columns)
          then su_raise (Exc "ValueError"
                   "feature_columns.pkl must contain a list of column names")
          else mret tt);
     _ ← su_emit (SuLogInfo ("Loaded " +:+ pretty (len feature_columns) +:+
                              " feature columns."));
     su_emit (SuLogInfo "All artifacts loaded and validated successfully."))
    (λ e,
      _ ← su_emit (SuLogError ("Failed to load artifacts: " +:+ exc_str e));
      su_raise (Exc "RuntimeError"
                  ("Startup failed: Could not load required artifacts. " +:+ exc_str e))).

End Lifespan.

(** [lifespan] after its [yield]. *)
Definition lifespan_shutdown : Startup unit :=
  su_emit (SuLogInfo "Shutting down LifeShield Backend...").

(** The globals before startup. *)
Definition globals_unset : module_globals :=
  {| g_model := None; g_scaler := None; g_feature_columns := None |}.

(** The handlers' reading of an unpickled object: as a classifier when it has
    [predict_proba], as a scaler when it has [transform], as a list of column
    names when it is a list of strings. *)
Definition as_Model (o : pyobject) : option Model :=
  p ← obj_predict_proba o;
  Some {| model_feature_names_in_ := obj_feature_names_in_ o; predict_proba := p |}.

Definition as_Scaler (o : pyobject) : option Scaler :=
  t ← obj_transform o;
  Some {| scaler_feature_names_in_ := obj_feature_names_in_ o; transform := t |}.

Definition as_name (v : pyval) : option string :=
  match v with VStr s => Some s | _ => None end.

Definition as_names (o : pyobject) : option (list string) :=
  items ← obj_items o; mapM as_name items.

(** The typed globals of the handlers, for module globals that are unset or
    hold objects readable as above. *)
Definition view {A} (f : pyobject → option A) (o : option pyobject) : option (option A) :=
  match o with
  | None => Some None
  | Some o => Some <$> f o
  end.

Definition typed_globals (g : module_globals) : option globals :=
  m ← view as_Model (g_model g);
  s ← view as_Scaler (g_scaler g);
  fc ← view as_names (g_feature_columns g);
  Some {| model := m; scaler := s; feature_columns := fc |}.

(** ** More vocabulary *)

(** The labels the overlay loop appends to a frame whose labels are [seen]:
    the names of [cols] that are not yet there, each once, in order of first
    occurrence. *)
Fixpoint new_labels (seen cols : list string) : list string :=
  match cols with
  | [] => []
  | c :: rest =>
      if decide (c ∈ seen) then new_labels seen rest
      else c :: new_labels (seen ++ [c]) rest
  end.

(** A number a 64-bit column holds: a float, or an integer from [-2^63] up
    to [2^64 - 1]. *)
Definition number64 (v : pyval) : Prop :=
  match v with
  | VInt n => (- 2 ^ 63 ≤ n < 2 ^ 64)%Z
  | VFloat _ => True
  | _ => False
  end.

Definition vitality_score_of (r : string * float * float * string) : float := r.1.2.
Definition recommendation_of (r : string * float * float * string) : string := r.2.

(** 100.0 as the specification of binary64 writes it: [25 * 2^48 * 2^-46]. *)
Definition m100 : positive := 7036874417766400.
Definition SF_hundred : spec_float := S754_finite false m100 (-46).

(** ** More stand-in artifacts *)

Definition obj_classifier : pyobject :=
  {| obj_class := "LogisticRegression"; obj_predict_proba := Some stub_proba;
     obj_transform := None;
     obj_feature_names_in_ := Some ["gender"; "bmi"; "age"; "smoker"];
     obj_items := None |}.

Definition obj_scaler : pyobject :=
  {| obj_class := "StandardScaler"; obj_predict_proba := None;
     obj_transform := Some centre_scale;
     obj_feature_names_in_ := Some ["age"; "bmi"]; obj_items := None |}.

Definition obj_columns : pyobject :=
  {| obj_class := "list"; obj_predict_proba := None; obj_transform := None;
     obj_feature_names_in_ := None;
     obj_items := Some [VStr "age"; VStr "bmi"; VStr "gender"] |}.

(** A directory holding the three artifacts, and one where [scaler.pkl] is
    missing. *)
Definition files_ok (path : string) : exc + pyobject :=
  if decide (path = "best_model.pkl") then inr obj_classifier
  else if decide (path = "scaler.pkl") then inr obj_scaler
  else if decide (path = "feature_columns.pkl") then inr obj_columns
  else inl (Exc "FileNotFoundError"
              ("[Errno 2] No such file or directory: '" +:+ path +:+ "'")).

Definition files_no_scaler (path : string) : exc + pyobject :=
  if decide (path = "scaler.pkl")
  then inl (Exc "FileNotFoundError" "[Errno 2] No such file or directory: 'scaler.pkl'")
  else files_ok path.

(** A directory whose [scaler.pkl] holds the list of column names. *)
Definition files_scaler_is_list (path : string) : exc + pyobject :=
  if decide (path = "scaler.pkl") then inr obj_columns else files_ok path.

(** A scaler that has no [feature_names_in_], beside a model that has none
    either. *)
Definition scaler_plain : Scaler :=
  {| scaler_feature_names_in_ := None; transform := centre_scale |}.

Definition model_plain : Model :=
  {| model_feature_names_in_ := None; predict_proba := stub_proba |}.

(** A scaler that raises, a classifier that raises, and one fitted on a
    single class. *)
Definition scaler_raising : Scaler :=
  {| scaler_feature_names_in_ := Some ["age"; "bmi"];
     transform := λ _, inl (Exc "NotFittedError" "This StandardScaler instance is not fitted yet.") |}.

Definition model_raising : Model :=
  {| model_feature_names_in_ := Some ["gender"; "bmi"; "age"; "smoker"];
     predict_proba := λ _, inl (Exc "ValueError" "X has 4 features, but LogisticRegression is expecting 21 features as input.") |}.

Definition model_one_class : Model :=
  {| model_feature_names_in_ := Some ["gender"; "bmi"; "age"; "smoker"];
     predict_proba := λ _, inr [1%float] |}.

(** * Properties *)

(** ** The array of a frame *)

(** [df.values] has one cell per column. *)
Lemma length_values (df : frame) : length (values df) = length df.
Proof. unfold values. by rewrite !length_fmap. Qed.

(** A cast leaves a cell as it was, or turns an integer into the nearest
    [float64]. *)
Lemma astype_cases (t : dtype) (v : pyval) :
  astype t v = v ∨ ∃ n, v = VInt n ∧ astype t v = VFloat (float64_of_int n).
Proof. destruct t, v; simpl; eauto. Qed.

Lemma lookup_values (df : frame) (j : nat) (c : string) (v : pyval) :
  df !! j = Some (c, v) →
  values df !! j = Some v ∨
  ∃ n, v = VInt n ∧ values df !! j = Some (VFloat (float64_of_int n)).
Proof.
  intros Hj. unfold values. rewrite !list_lookup_fmap, Hj. simpl.
  destruct (astype_cases (find_common_type (dtype_of <$> df.*2)) v)
    as [->|(n & -> & ->)]; eauto.
Qed.

(** The array of a frame that holds floats only is the frame's row. *)
Lemma values_floats (df : frame) (xs : list float) :
  df.*2 = VFloat <$> xs → values df = VFloat <$> xs.
Proof.
  intros Hdf. unfold values. rewrite Hdf, <- list_fmap_compose.
  apply list_fmap_ext. intros _ x _. simpl. by destruct (find_common_type _).
Qed.

Lemma dtype_eqb_eq (t u : dtype) : dtype_eqb t u = true ↔ t = u.
Proof. destruct t, u; simpl; split; congruence. Qed.

(** Numbers that are not all of one dtype, a float among them, make a
    [float64] array. *)
Lemma find_common_type_numbers (types : list dtype) :
  float64 ∈ types →
  (∀ t, t ∈ types → t = int64 ∨ t = uint64 ∨ t = float64) →
  find_common_type types = float64.
Proof.
  intros Hfloat Hnum. destruct types as [|first rest]; [done|].
  unfold find_common_type.
  destruct (forallb (dtype_eqb first) (first :: rest)) eqn:Hall.
  { rewrite forallb_forall in Hall. apply dtype_eqb_eq, Hall.
    by apply list_elem_of_In. }
  destruct (existsb (dtype_eqb object_) (first :: rest)) eqn:Hobj.
  { apply existsb_exists in Hobj as (t & Ht & Heq). apply dtype_eqb_eq in Heq.
    subst t. apply list_elem_of_In, Hnum in Ht. destruct Ht as [?|[?|?]]; discriminate. }
  destruct (existsb (dtype_eqb bool_) (first :: rest)) eqn:Hbool; [|done].
  apply existsb_exists in Hbool as (t & Ht & Heq). apply dtype_eqb_eq in Heq.
  subst t. apply list_elem_of_In, Hnum in Ht. destruct Ht as [?|[?|?]]; discriminate.
Qed.

Lemma dtype_of_number64 (v : pyval) :
  number64 v → dtype_of v = int64 ∨ dtype_of v = uint64 ∨ dtype_of v = float64.
Proof.
  destruct v as [|b|n|x|s]; simpl; try done; [|by auto].
  generalize (2 ^ 63)%Z (2 ^ 64)%Z. intros a b [Hlo Hhi].
  destruct (- a <=? n)%Z eqn:H1; [|apply Z.leb_gt in H1; lia].
  destruct (n <? a)%Z eqn:H2; simpl; [by left|]. right. left.
  apply Z.ltb_ge in H2. apply Z.leb_le in H2. rewrite H2.
  apply Z.ltb_lt in Hhi. by rewrite Hhi.
Qed.

(** The array of a frame of numbers that holds a float: every cell as a
    float. *)
Lemma values_numbers (df : frame) :
  (∃ c x, (c, VFloat x) ∈ df) →
  (∀ c v, (c, v) ∈ df → number64 v) →
  values df = astype float64 <$> df.*2.
Proof.
  intros (c & x & Hx) Hnum. unfold values. rewrite find_common_type_numbers; [done|..].
  - apply list_elem_of_fmap. exists (VFloat x). split; [done|].
    apply list_elem_of_fmap. by exists (c, VFloat x).
  - intros t Ht. apply list_elem_of_fmap in Ht as (v & -> & Hv).
    apply list_elem_of_fmap in Hv as ([c' v'] & -> & Hv).
    by apply dtype_of_number64, Hnum with c'.
Qed.

(** Rows of one dtype; integers beside a float, the first rounded to
    [2^53]; a [uint64] beside an [int64]; and rows that a string, [None] or
    a bool make an object array. *)
Lemma values_examples :
  values [("a", VInt 1); ("b", VInt 2)] = [VInt 1; VInt 2] ∧
  values [("a", VFloat 1.5); ("b", VFloat 2)] = [VFloat 1.5; VFloat 2] ∧
  values [("a", VInt 9007199254740993); ("b", VFloat 0.5)]
    = [VFloat 9007199254740992; VFloat 0.5] ∧
  values [("a", VInt 9223372036854775808); ("b", VInt (-1))]
    = [VFloat 9223372036854775808; VFloat (-1)] ∧
  values [("a", VInt 1); ("b", VFloat 0.5); ("c", VStr "x")]
    = [VInt 1; VFloat 0.5; VStr "x"] ∧
  values [("a", VNone); ("b", VFloat 0.5)] = [VNone; VFloat 0.5] ∧
  values [("a", VBool true); ("b", VInt 1)] = [VBool true; VInt 1] ∧
  values [("a", VBool true); ("b", VBool false)] = [VBool true; VBool false].
Proof. split_and!; vm_compute; reflexivity. Qed.

(** ** Frames built from a request *)

(** A request's frame has one cell per key of the dict. *)
Lemma cell_DataFrame (m : gmap string pyval) (c : string) :
  cell (DataFrame m) c = m !! c.
Proof.
  unfold cell, DataFrame.
  destruct (list_find (λ c', c'.1 = c) (map_to_list m)) as [[i [k v]]|] eqn:Hf; simpl.
  - apply list_find_Some in Hf as (Hi & Hk & _). simpl in Hk. subst k.
    symmetry. apply elem_of_map_to_list. eapply list_elem_of_lookup_2, Hi.
  - destruct (m !! c) as [v|] eqn:Hm; [|done].
    apply elem_of_map_to_list in Hm.
    eapply list_find_None, Forall_forall in Hf; [|exact Hm]. by destruct Hf.
Qed.

(** Reindexing a request's frame never raises: each label of the target
    takes the request's value, or [0] when the request lacks it. *)
Lemma reindex_DataFrame (m : gmap string pyval) (cols : list string) :
  reindex (DataFrame m) cols
  = ([], inr ((λ c, (c, default (VInt 0) (m !! c))) <$> cols)).
Proof.
  unfold reindex. rewrite decide_True by apply NoDup_fst_map_to_list.
  unfold mret, M_ret. do 2 f_equal.
  apply list_fmap_ext. intros _ c _. by rewrite cell_DataFrame.
Qed.

Lemma columns_reindexed (m : gmap string pyval) (cols : list string) :
  columns ((λ c, (c, default (VInt 0) (m !! c))) <$> cols) = cols.
Proof.
  unfold columns. induction cols as [|c cols IH]; simpl; [done | by f_equal].
Qed.

(** ** Column assignment *)

Lemma columns_setitem_old (df : frame) (col : string) (v : pyval) :
  col ∈ columns df → columns (setitem df col v) = columns df.
Proof.
  intros Hin. unfold setitem. rewrite decide_True by done.
  unfold columns. clear Hin.
  induction df as [|[c x] df IH]; simpl; [done|].
  f_equal; [|done]. by case_decide; simplify_eq/=.
Qed.

Lemma columns_setitem_new (df : frame) (col : string) (v : pyval) :
  col ∉ columns df → columns (setitem df col v) = columns df ++ [col].
Proof.
  intros Hin. unfold setitem. rewrite decide_False by done.
  unfold columns. by rewrite fmap_app.
Qed.

(** After [df[col] = v] a cell is [v] when its label is [col], and is the
    cell [df] had at that position otherwise. *)
Lemma lookup_setitem (df : frame) (col : string) (v : pyval) (j : nat)
    (c : string) (x : pyval) :
  setitem df col v !! j = Some (c, x) →
  (c = col ∧ x = v) ∨ (c ≠ col ∧ df !! j = Some (c, x)).
Proof.
  unfold setitem. destruct (decide (col ∈ columns df)) as [Hin|Hin].
  - rewrite list_lookup_fmap. destruct (df !! j) as [[c' x']|]; simpl; [|done].
    case_decide; simplify_eq/=; intros; simplify_eq; auto.
  - intros Hj. apply lookup_app_Some in Hj as [Hj | [Hlen Hj]].
    + right. split; [|done]. intros ->. apply Hin.
      apply list_elem_of_fmap. exists (col, x). split; [done|].
      by eapply list_elem_of_lookup_2.
    + apply list_lookup_singleton_Some in Hj as [_ ?]. simplify_eq. auto.
Qed.

(** ** The overlay loop *)

Lemma last_index_here (c : string) (cols : list string) :
  c ∉ cols → last_index (c :: cols) c 0.
Proof.
  intros Hc. split; [done|]. intros [|k'] Hk Heq; [lia|].
  simpl in Heq. apply Hc. by eapply list_elem_of_lookup_2.
Qed.

Lemma last_index_later (c c' : string) (cols : list string) (k : nat) :
  last_index cols c k → last_index (c' :: cols) c (S k).
Proof.
  intros [Hk Hlast]. split; [done|]. intros [|k'] Hlt; [lia|].
  simpl. apply Hlast. lia.
Qed.

(** The loop raises exactly when the transformed row is too short, and it
    then stops at the first index the row lacks. *)
Lemma update_scaled_columns_short (cols : list string) :
  ∀ (i : nat) (scaled : list float) (df : frame),
    i ≤ length scaled → length scaled < i + length cols →
    update_scaled_columns i cols scaled df
    = ([], inl (Exc "IndexError"
        ("index " +:+ pretty (length scaled) +:+
         " is out of bounds for axis 1 with size " +:+ pretty (length scaled)))).
Proof.
  induction cols as [|c cols IH]; intros i scaled df Hi Hlt; simpl in *; [lia|].
  unfold getcol. destruct (scaled !! i) as [x|] eqn:Hx; simpl.
  - apply lookup_lt_Some in Hx.
    rewrite (IH (S i) scaled (setitem df c (VFloat x))) by lia. done.
  - apply lookup_ge_None in Hx. by replace i with (length scaled) by lia.
Qed.

(** When the transformed row is long enough the loop returns a frame that
    extends the given one by the labels it lacked, and each cell is either an
    untouched cell of the given frame, under a label the loop never assigns,
    or the transformed value at the last position of its label. *)
Lemma update_scaled_columns_spec (cols : list string) :
  ∀ (i : nat) (scaled : list float) (df : frame),
    i + length cols ≤ length scaled →
    ∃ df' extra,
      update_scaled_columns i cols scaled df = ([], inr df') ∧
      columns df' = columns df ++ extra ∧
      (∀ c, c ∈ extra ↔ (c ∈ cols ∧ c ∉ columns df)) ∧
      (∀ j c v, df' !! j = Some (c, v) →
         ((c ∉ cols) ∧ df !! j = Some (c, v)) ∨
         (∃ k x, last_index cols c k ∧ scaled !! (i + k) = Some x ∧ v = VFloat x)).
Proof.
  induction cols as [|col cols IH]; intros i scaled df Hlen; simpl in *.
  - exists df, []. rewrite app_nil_r. split_and!; [done..| |].
    + intros c. rewrite !elem_of_nil. tauto.
    + intros j c v Hj. left. split; [apply not_elem_of_nil | done].
  - unfold getcol. destruct (scaled !! i) as [x|] eqn:Hx; simpl;
      [|apply lookup_ge_None in Hx; lia].
    destruct (IH (S i) scaled (setitem df col (VFloat x))) as
      (df' & extra & Hrun & Hcols & Hextra & Hcells); [lia|].
    rewrite Hrun. simpl.
    destruct (decide (col ∈ columns df)) as [Hold|Hnew].
    + rewrite columns_setitem_old in Hcols, Hextra by done.
      exists df', extra. split_and!; [done..| |].
      * intros c. rewrite Hextra, elem_of_cons.
        split; [intros [? ?]; auto|]. intros [[->|?] ?]; [done|auto].
      * intros j c v Hj. destruct (Hcells j c v Hj) as [[Hc Hset]|(k & y & Hk & Hy & ->)].
        -- apply lookup_setitem in Hset as [[-> ->]|[Hne Hdf]].
           ++ right. exists 0, x. rewrite Nat.add_0_r.
              split_and!; [by apply last_index_here | done..].
           ++ left. split; [|done]. rewrite elem_of_cons. tauto.
        -- right. exists (S k), y. rewrite Nat.add_succ_r.
           split_and!; [by apply last_index_later | done..].
    + rewrite columns_setitem_new in Hcols, Hextra by done.
      exists df', (col :: extra). split_and!; [done| by rewrite Hcols, <- app_assoc | |].
      * intros c. rewrite !elem_of_cons, Hextra, elem_of_app, list_elem_of_singleton.
        destruct (decide (c = col)) as [->|Hne].
        { split; [intros _|by left]. split; [by left | done]. }
        split; [intros [?|[Hc Hno]]; [done|]|intros [[?|Hc] Hno]; [done|]].
        -- split; [by right|]. intros Hdf. apply Hno. by left.
        -- right. split; [done|]. intros [Hdf|?]; [by apply Hno | done].
      * intros j c v Hj. destruct (Hcells j c v Hj) as [[Hc Hset]|(k & y & Hk & Hy & ->)].
        -- apply lookup_setitem in Hset as [[-> ->]|[Hne Hdf]].
           ++ right. exists 0, x. rewrite Nat.add_0_r.
              split_and!; [by apply last_index_here | done..].
           ++ left. split; [|done]. rewrite elem_of_cons. tauto.
        -- right. exists (S k), y. rewrite Nat.add_succ_r.
           split_and!; [by apply last_index_later | done..].
Qed.

(** ** The frame handed to the classifier *)

Lemma aligned_ext (m m' : gmap string pyval) (cols : list string) :
  (∀ c, c ∈ cols → m !! c = m' !! c) → aligned m cols = aligned m' cols.
Proof.
  intros Hagree. apply list_fmap_ext. intros i c Hc.
  rewrite (Hagree c); [done|]. by eapply list_elem_of_lookup_2.
Qed.

Lemma lookup_aligned (m : gmap string pyval) (cols : list string) (j : nat) :
  aligned m cols !! j = (λ c, (c, default (VInt 0) (m !! c))) <$> cols !! j.
Proof. apply list_lookup_fmap. Qed.

(** [final_df] step by step: the scaler sees the request aligned on its own
    schema; if it returns a row, the loop runs over the request aligned on the
    model's schema. *)
Lemma final_df_unfold (md : Model) (sc : Scaler) (fc : list string)
    (req : HealthFeatures) :
  final_df md sc fc req =
    let df_for_scaler := aligned (features req) (scaler_features sc fc) in
    match transform sc df_for_scaler with
    | inl e => ([EvTransform df_for_scaler], inl e)
    | inr scaled =>
        let '(t, r) := update_scaled_columns 0 (scaler_features sc fc) scaled
                         (aligned (features req) (model_features md fc)) in
        (EvTransform df_for_scaler :: t, r)
    end.
Proof.
  unfold final_df. rewrite !reindex_DataFrame. fold (aligned (features req)).
  simpl. destruct (transform sc _) as [e|scaled]; simpl; [done|].
  by destruct (update_scaled_columns _ _ _ _) as [t r].
Qed.

(** Two requests that agree on every name of the two schemas give the same
    run: same call to the scaler, same frame or same exception. *)
Lemma final_df_ext (md : Model) (sc : Scaler) (fc : list string)
    (m m' : gmap string pyval) :
  (∀ c, c ∈ scaler_features sc fc ∨ c ∈ model_features md fc → m !! c = m' !! c) →
  final_df md sc fc {| features := m |} = final_df md sc fc {| features := m' |}.
Proof.
  intros Hagree. rewrite !final_df_unfold. simpl.
  rewrite (aligned_ext m m' (scaler_features sc fc)) by auto.
  by rewrite (aligned_ext m m' (model_features md fc)) by auto.
Qed.

(** When the scaler returns a row at least as wide as its schema, [final_df]
    returns a frame; its columns are the model's schema followed by the
    scaler's names the model's schema lacks. *)
Lemma final_df_returns (md : Model) (sc : Scaler) (fc : list string)
    (req : HealthFeatures) (scaled : list float) :
  transform sc (aligned (features req) (scaler_features sc fc)) = inr scaled →
  length (scaler_features sc fc) ≤ length scaled →
  ∃ df extra,
    final_df md sc fc req
      = ([EvTransform (aligned (features req) (scaler_features sc fc))], inr df) ∧
    columns df = model_features md fc ++ extra ∧
    (∀ c, c ∈ extra ↔ (c ∈ scaler_features sc fc ∧ c ∉ model_features md fc)) ∧
    (∀ j c v, df !! j = Some (c, v) →
       ((c ∉ scaler_features sc fc) ∧
        aligned (features req) (model_features md fc) !! j = Some (c, v)) ∨
       (∃ k x, last_index (scaler_features sc fc) c k ∧
               scaled !! k = Some x ∧ v = VFloat x)).
Proof.
  intros Htr Hlen. rewrite final_df_unfold. simpl. rewrite Htr.
  destruct (update_scaled_columns_spec (scaler_features sc fc) 0 scaled
              (aligned (features req) (model_features md fc)))
    as (df & extra & Hrun & Hcols & Hextra & Hcells); [simpl; lia|].
  unfold aligned in Hcols, Hextra. rewrite columns_reindexed in Hcols, Hextra.
  exists df, extra. rewrite Hrun. by split_and!.
Qed.

(** If [final_df] returns, the scaler returned a row at least as wide as its
    schema. *)
Lemma final_df_inr_width (md : Model) (sc : Scaler) (fc : list string)
    (req : HealthFeatures) (t : list event) (df : frame) :
  final_df md sc fc req = (t, inr df) →
  ∃ scaled,
    transform sc (aligned (features req) (scaler_features sc fc)) = inr scaled ∧
    length (scaler_features sc fc) ≤ length scaled.
Proof.
  rewrite final_df_unfold. simpl.
  destruct (transform sc _) as [e|scaled]; [done|].
  intros Hrun. exists scaled. split; [done|].
  destruct (decide (length (scaler_features sc fc) ≤ length scaled)) as [|Hshort]; [done|].
  rewrite update_scaled_columns_short in Hrun by (simpl; lia). done.
Qed.

(** C1, at an input where it fails: the scaler's schema [age, bmi] has the
    name [bmi] that the model's schema [age, gender] lacks. For the request
    [{age: 48, gender: 1}] the frame handed to the classifier has three
    columns, [age, gender, bmi]: the transformed [bmi] is appended as a new
    last column instead of being discarded. *)
Lemma final_df_appends_scaler_only_column :
  final_df model_age_gender scaler_age_bmi ["age"; "bmi"; "gender"]
    {| features := {[ "age" := VInt 48; "gender" := VInt 1 ]} |}
  = ([EvTransform [("age", VInt 48); ("bmi", VInt 0)]],
     inr [("age", VFloat 1); ("gender", VInt 1); ("bmi", VFloat (-5))]).
Proof. vm_compute. reflexivity. Qed.

(** When every name of the scaler's schema is a name of the model's schema and
    the scaler returns a row at least as wide as its schema, the frame handed
    to the classifier has exactly the model's schema as its columns, in the
    model's order, whatever the request holds. *)
Theorem final_df_columns_model_schema (md : Model) (sc : Scaler) (fc : list string)
    (req : HealthFeatures) (scaled : list float) :
  scaler_features sc fc ⊆ model_features md fc →
  transform sc (aligned (features req) (scaler_features sc fc)) = inr scaled →
  length (scaler_features sc fc) ≤ length scaled →
  ∃ df,
    final_df md sc fc req
      = ([EvTransform (aligned (features req) (scaler_features sc fc))], inr df) ∧
    columns df = model_features md fc ∧
    length (values df) = length (model_features md fc).
Proof.
  intros Hsub Htr Hlen.
  destruct (final_df_returns md sc fc req scaled Htr Hlen)
    as (df & extra & Hrun & Hcols & Hextra & _).
  assert (extra = []) as ->.
  { destruct extra as [|c extra]; [done|].
    destruct (Hextra c) as [Hc _]. destruct Hc as [Hin Hout]; [by left|].
    destruct Hout. by apply Hsub. }
  rewrite app_nil_r in Hcols. exists df. split_and!; [done..|].
  rewrite length_values, <- Hcols. unfold columns. by rewrite length_fmap.
Qed.

Lemma final_df_columns_model_schema_witness :
  ∃ df,
    final_df model_all scaler_age_bmi []
      {| features := {[ "age" := VInt 48; "note" := VStr "abc" ]} |}
      = ([EvTransform [("age", VInt 48); ("bmi", VInt 0)]], inr df) ∧
    columns df = ["gender"; "bmi"; "age"; "smoker"] ∧
    length (values df) = 4.
Proof.
  destruct (final_df_columns_model_schema model_all scaler_age_bmi []
              {| features := {[ "age" := VInt 48; "note" := VStr "abc" ]} |}
              [1; -5]%float) as (df & Hrun & Hcols & Hlen).
  - intros c Hc. vm_compute in Hc |- *.
    repeat (apply elem_of_cons in Hc as [->|Hc]; [set_solver|]).
    by apply elem_of_nil in Hc.
  - vm_compute. reflexivity.
  - simpl. lia.
  - exists df. split_and!; [exact Hrun|exact Hcols|exact Hlen].
Defined.

(** C2: whenever the scaler returns a row at least as wide as its schema,
    [final_df] returns a frame, and at every position of the model's schema
    whose name is also in the scaler's schema the frame holds, under that
    name, the transformed value: the entry of the scaler's output at the
    position of the name in the scaler's schema (the last one if the name
    repeats), not the request's value nor the fill value. *)
Theorem final_df_overlap_transformed (md : Model) (sc : Scaler) (fc : list string)
    (req : HealthFeatures) (scaled : list float) :
  transform sc (aligned (features req) (scaler_features sc fc)) = inr scaled →
  length (scaler_features sc fc) ≤ length scaled →
  ∃ df,
    final_df md sc fc req
      = ([EvTransform (aligned (features req) (scaler_features sc fc))], inr df) ∧
    ∀ j c, model_features md fc !! j = Some c → c ∈ scaler_features sc fc →
      ∃ k x, last_index (scaler_features sc fc) c k ∧ scaled !! k = Some x ∧
             df !! j = Some (c, VFloat x).
Proof.
  intros Htr Hlen.
  destruct (final_df_returns md sc fc req scaled Htr Hlen)
    as (df & extra & Hrun & Hcols & _ & Hcells).
  exists df. split; [done|]. intros j c Hj Hc.
  assert (columns df !! j = Some c) as Hlabel.
  { rewrite Hcols. by apply lookup_app_l_Some. }
  unfold columns in Hlabel. rewrite list_lookup_fmap in Hlabel.
  destruct (df !! j) as [[c' v]|] eqn:Hdf; simplify_eq/=.
  destruct (Hcells j c v Hdf) as [[Hno _]|(k & x & Hk & Hx & ->)]; [done|].
  by exists k, x.
Qed.

Lemma final_df_overlap_transformed_witness :
  ∃ df,
    final_df model_all scaler_age_bmi []
      {| features := {[ "age" := VInt 48; "bmi" := VInt 24; "gender" := VInt 1 ]} |}
      = ([EvTransform [("age", VInt 48); ("bmi", VInt 24)]], inr df) ∧
    ∀ j c, ["gender"; "bmi"; "age"; "smoker"] !! j = Some c → c ∈ ["age"; "bmi"] →
      ∃ k x, last_index ["age"; "bmi"] c k ∧ [1; -2]%float !! k = Some x ∧
             df !! j = Some (c, VFloat x).
Proof.
  pose proof (final_df_overlap_transformed model_all scaler_age_bmi []
           {| features := {[ "age" := VInt 48; "bmi" := VInt 24; "gender" := VInt 1 ]} |}
           [1; -2]%float) as H.
  vm_compute in H |- *. apply H; [reflexivity|lia].
Defined.

(** ** Missing fields and the empty request *)

(** A name of the scaler's schema that the request lacks is [0] in the row
    the scaler is called on, whatever else the request holds; the call is
    made for every request. *)
Theorem missing_field_filled_with_zero (md : Model) (sc : Scaler) (fc : list string)
    (req : HealthFeatures) :
  ∃ t r,
    final_df md sc fc req
      = (EvTransform (aligned (features req) (scaler_features sc fc)) :: t, r) ∧
    ∀ i c, scaler_features sc fc !! i = Some c → features req !! c = None →
      aligned (features req) (scaler_features sc fc) !! i = Some (c, VInt 0).
Proof.
  rewrite final_df_unfold. simpl.
  destruct (transform sc _) as [e|scaled].
  - exists [], (inl e). split; [done|].
    intros i c Hi Hc. rewrite lookup_aligned, Hi. simpl. by rewrite Hc.
  - destruct (update_scaled_columns _ _ _ _) as [t r]. exists t, r. split; [done|].
    intros i c Hi Hc. rewrite lookup_aligned, Hi. simpl. by rewrite Hc.
Qed.

(** C4, at an input where it fails (the defect of C1): with the scaler's
    schema [age, bmi] and the model's schema [age, gender], the empty request
    gives a frame of three columns, not of [len(model_schema) = 2]. *)
Lemma final_df_empty_record_wider :
  final_df model_age_gender scaler_age_bmi ["age"; "bmi"; "gender"] {| features := ∅ |}
  = ([EvTransform [("age", VInt 0); ("bmi", VInt 0)]],
     inr [("age", VFloat (-5)); ("gender", VInt 0); ("bmi", VFloat (-5))]).
Proof. vm_compute. reflexivity. Qed.

(** The empty request, when every name of the scaler's schema is a name of
    the model's schema and the scaler returns a row at least as wide as its
    schema: the scaler is called on the all-zero row, the frame handed to the
    classifier has the model's schema as columns, a column the scaler's schema
    names holds the transformed value and every other column holds [0]. *)
Theorem final_df_empty_record (md : Model) (sc : Scaler) (fc : list string)
    (scaled : list float) :
  scaler_features sc fc ⊆ model_features md fc →
  transform sc ((λ c, (c, VInt 0)) <$> scaler_features sc fc) = inr scaled →
  length (scaler_features sc fc) ≤ length scaled →
  ∃ df,
    final_df md sc fc {| features := ∅ |}
      = ([EvTransform ((λ c, (c, VInt 0)) <$> scaler_features sc fc)], inr df) ∧
    columns df = model_features md fc ∧
    ∀ j c, model_features md fc !! j = Some c →
      ((c ∉ scaler_features sc fc) ∧ df !! j = Some (c, VInt 0)) ∨
      (∃ k x, last_index (scaler_features sc fc) c k ∧ scaled !! k = Some x ∧
              df !! j = Some (c, VFloat x)).
Proof.
  intros Hsub Htr Hlen.
  assert (∀ cols, aligned ∅ cols = (λ c, (c, VInt 0)) <$> cols) as Hzero.
  { intros cols. apply list_fmap_ext. intros _ c _. by rewrite lookup_empty. }
  rewrite <- Hzero in Htr |- *.
  destruct (final_df_returns md sc fc {| features := ∅ |} scaled Htr Hlen)
    as (df & extra & Hrun & Hcols & Hextra & Hcells).
  assert (extra = []) as ->.
  { destruct extra as [|c extra]; [done|].
    destruct (Hextra c) as [Hc _]. destruct Hc as [Hin Hout]; [by left|].
    destruct Hout. by apply Hsub. }
  rewrite app_nil_r in Hcols. exists df. split_and!; [done..|].
  intros j c Hj.
  assert (columns df !! j = Some c) as Hlabel by by rewrite Hcols.
  unfold columns in Hlabel. rewrite list_lookup_fmap in Hlabel.
  destruct (df !! j) as [[c' v]|] eqn:Hdf; simplify_eq/=.
  destruct (Hcells j c v Hdf) as [[Hno Hraw]|(k & x & Hk & Hx & ->)].
  - left. split; [done|]. rewrite Hzero, list_lookup_fmap, Hj in Hraw. by simplify_eq/=.
  - right. by exists k, x.
Qed.

Lemma final_df_empty_record_witness :
  ∃ df,
    final_df model_all scaler_age_bmi [] {| features := ∅ |}
      = ([EvTransform [("age", VInt 0); ("bmi", VInt 0)]], inr df) ∧
    columns df = ["gender"; "bmi"; "age"; "smoker"] ∧
    ∀ j c, ["gender"; "bmi"; "age"; "smoker"] !! j = Some c →
      ((c ∉ ["age"; "bmi"]) ∧ df !! j = Some (c, VInt 0)) ∨
      (∃ k x, last_index ["age"; "bmi"] c k ∧ [-5; -5]%float !! k = Some x ∧
              df !! j = Some (c, VFloat x)).
Proof.
  pose proof (final_df_empty_record model_all scaler_age_bmi [] [-5; -5]%float) as H.
  vm_compute in H |- *. apply H; [|reflexivity|lia].
  intros c Hc. repeat (apply elem_of_cons in Hc as [->|Hc]; [set_solver|]).
  by apply elem_of_nil in Hc.
Defined.

(** ** Unknown fields *)

(** C5: removing from a request any set of fields whose names occur in
    neither schema changes nothing: same call to the scaler, same frame
    handed to the classifier (or same exception). *)
Theorem final_df_ignores_unknown_fields (md : Model) (sc : Scaler) (fc : list string)
    (m : gmap string pyval) (unknown : gset string) :
  (∀ k, k ∈ unknown → (k ∉ scaler_features sc fc) ∧ (k ∉ model_features md fc)) →
  final_df md sc fc {| features := m |}
  = final_df md sc fc {| features := filter (λ kv, kv.1 ∉ unknown) m |}.
Proof.
  intros Hunknown. apply final_df_ext. intros c Hc.
  rewrite map_lookup_filter. destruct (m !! c) as [v|]; simpl; [|done].
  rewrite option_guard_True; [done|]. simpl.
  intros Hin. destruct (Hunknown c Hin). tauto.
Qed.

Lemma final_df_ignores_unknown_fields_witness :
  final_df model_all scaler_age_bmi []
    {| features := {[ "age" := VInt 48; "note" := VStr "abc"; "zip" := VInt 7 ]} |}
  = final_df model_all scaler_age_bmi []
      {| features := filter (λ kv, kv.1 ∉ ({[ "note"; "zip" ]} : gset string))
                       {[ "age" := VInt 48; "note" := VStr "abc"; "zip" := VInt 7 ]} |}.
Proof.
  apply (final_df_ignores_unknown_fields model_all scaler_age_bmi []).
  intros k Hk. vm_compute scaler_features. vm_compute model_features.
  assert (k = "note" ∨ k = "zip") as [-> | ->] by set_solver.
  - split; intros Hin; repeat (apply elem_of_cons in Hin as [?|Hin]; [done|]);
      by apply elem_of_nil in Hin.
  - split; intros Hin; repeat (apply elem_of_cons in Hin as [?|Hin]; [done|]);
      by apply elem_of_nil in Hin.
Defined.

(** ** [predict]: artifacts not loaded *)

(** C7: while the model, the scaler or the feature-column list is not
    loaded, [predict] raises [HTTPException(503)] and does nothing else: the
    trace is empty (no call to the scaler, none to the classifier) and no
    prediction is returned. *)
Theorem predict_unavailable (round : float → Z → float) (g : globals)
    (req : HealthFeatures) :
  model g = None ∨ scaler g = None ∨ feature_columns g = None →
  predict round g req = ([], inl (HTTPException 503 "Model artifacts are not loaded.")).
Proof.
  unfold predict.
  destruct (model g), (scaler g), (feature_columns g); intros [?|[?|?]]; done.
Qed.

Lemma predict_unavailable_witness :
  scaler scaler_not_loaded = None ∧
  ∀ round req,
    predict round scaler_not_loaded req
    = ([], inl (HTTPException 503 "Model artifacts are not loaded.")).
Proof.
  split; [reflexivity|].
  intros round req. apply (predict_unavailable round). right. left. reflexivity.
Defined.

(** ** [predict]: artifacts loaded *)

Lemma predict_loaded (round : float → Z → float) (g : globals) (md : Model)
    (sc : Scaler) (fc : list string) (req : HealthFeatures) :
  model g = Some md → scaler g = Some sc → feature_columns g = Some fc →
  predict round g req = predict round (Build_globals (Some md) (Some sc) (Some fc)) req.
Proof. intros Hm Hs Hf. unfold predict. by rewrite Hm, Hs, Hf. Qed.

(** [predict] reads the request only through [final_df]. *)
Lemma predict_final_df_ext (round : float → Z → float) (md : Model)
    (sc sc' : Scaler) (fc : list string) (req req' : HealthFeatures) :
  final_df md sc fc req = final_df md sc' fc req' →
  predict round (Build_globals (Some md) (Some sc) (Some fc)) req
  = predict round (Build_globals (Some md) (Some sc') (Some fc)) req'.
Proof. intros Heq. unfold predict. simpl. by rewrite Heq. Qed.

(** Every exception raised inside the [try] leaves [predict] as
    [HTTPException(500)] with the detail ["Prediction failed: " + str(e)],
    after one [logger.error]; [predict] raises nothing else once the
    artifacts are loaded. *)
Lemma predict_error_is_500 (round : float → Z → float) (g : globals) (md : Model)
    (sc : Scaler) (fc : list string) (req : HealthFeatures)
    (t : list event) (e : http_exception) :
  model g = Some md → scaler g = Some sc → feature_columns g = Some fc →
  predict round g req = (t, inl e) →
  ∃ msg, e = HTTPException 500 ("Prediction failed: " +:+ msg) ∧
         last t = Some (EvLogError ("Prediction error: " +:+ msg)).
Proof.
  intros Hm Hs Hf. rewrite (predict_loaded round g md sc fc req Hm Hs Hf).
  unfold predict, try_except. simpl.
  destruct (_ ≫= _) as [t0 [e0|resp]]; simpl; [|done].
  intros [= <- <-]. exists (exc_str e0). split; [done|].
  by rewrite last_snoc.
Qed.

(** When [final_df] raises, so does [predict], with the same message, and
    the classifier is not called. *)
Lemma predict_final_df_raises (round : float → Z → float) (md : Model)
    (sc : Scaler) (fc : list string) (req : HealthFeatures)
    (t : list event) (e : exc) :
  final_df md sc fc req = (t, inl e) →
  predict round (Build_globals (Some md) (Some sc) (Some fc)) req
  = (t ++ [EvLogError ("Prediction error: " +:+ exc_str e)],
     inl (HTTPException 500 ("Prediction failed: " +:+ exc_str e))).
Proof. intros Hrun. unfold predict. simpl. rewrite Hrun. done. Qed.

(** The loop reads only the first [len(scaler_features)] entries of the
    transformed row. *)
Lemma update_scaled_columns_take (cols : list string) :
  ∀ (i n : nat) (scaled : list float) (df : frame),
    i + length cols ≤ n →
    update_scaled_columns i cols (take n scaled) df
    = update_scaled_columns i cols scaled df ∨
    length scaled < i + length cols.
Proof.
  induction cols as [|c cols IH]; intros i n scaled df Hn; simpl in *; [by left|].
  destruct (decide (length scaled < i + S (length cols))) as [|Hlong]; [by right|].
  left. unfold getcol. rewrite lookup_take_lt by lia.
  destruct (scaled !! i) as [x|] eqn:Hx; simpl.
  - destruct (IH (S i) n scaled (setitem df c (VFloat x))) as [->|?]; [lia|done|lia].
  - apply lookup_ge_None in Hx. lia.
Qed.

(** ** Width of the transformed row *)

(** C8 as stated fails. With a scaler whose transform returns one value for
    a schema of two names, the request ends as a per-request
    [HTTPException(500)], "Prediction failed: index 1 is out of bounds ...",
    the response every failure inside the handler gets; with a transform that
    returns three values the request is answered normally. *)
Lemma predict_width_mismatch_is_per_request :
  (λ round, predict round (loaded model_all scaler_narrow)
              {| features := {[ "age" := VInt 48 ]} |})
  = (λ _, ([EvTransform [("age", VInt 48); ("bmi", VInt 0)];
            EvLogError "Prediction error: index 1 is out of bounds for axis 1 with size 1"],
           inl (HTTPException 500
                  "Prediction failed: index 1 is out of bounds for axis 1 with size 1")))
  ∧
  (λ round, predict round (loaded model_all scaler_wide)
              {| features := {[ "age" := VInt 48 ]} |})
  = (λ round, ([EvTransform [("age", VInt 48); ("bmi", VInt 0)];
                EvPredictProba [VFloat 0; VFloat (-1.5); VFloat 0.625; VFloat 0]],
               inr {| risk_probability := round 0.62%float 4%Z;
                      risk_level := "Moderate";
                      confidence := round (abs (0.62 - 0.5) * 2)%float 4%Z;
                      vitality_score := round ((1 - 0.62) * 100)%float 2%Z;
                      recommendation := "Some indicators suggest potential risks. Consider consulting a professional and reviewing your diet/exercise habits." |})).
Proof. split; reflexivity. Qed.

(** C8, amended: the width of the transformed row is looked at only by the
    loop that copies it. A row narrower than the scaler's schema makes the
    request, and only it, end as [HTTPException(500)] with numpy's
    out-of-bounds message, before the classifier is called; a row at least as
    wide never raises on that account, and the values past the schema's
    length are not read (a scaler returning only the first
    [len(scaler_features)] values gives the same outcome). *)
Theorem predict_transform_width (round : float → Z → float) (g : globals)
    (md : Model) (sc : Scaler) (fc : list string) (req : HealthFeatures)
    (scaled : list float) :
  model g = Some md → scaler g = Some sc → feature_columns g = Some fc →
  transform sc (aligned (features req) (scaler_features sc fc)) = inr scaled →
  (length scaled < length (scaler_features sc fc) →
   predict round g req
   = ([EvTransform (aligned (features req) (scaler_features sc fc));
       EvLogError ("Prediction error: index " +:+ pretty (length scaled) +:+
                   " is out of bounds for axis 1 with size " +:+ pretty (length scaled))],
      inl (HTTPException 500
             ("Prediction failed: index " +:+ pretty (length scaled) +:+
              " is out of bounds for axis 1 with size " +:+ pretty (length scaled)))))
  ∧
  (length (scaler_features sc fc) ≤ length scaled →
   (∃ df, final_df md sc fc req
          = ([EvTransform (aligned (features req) (scaler_features sc fc))], inr df)) ∧
   ∀ sc',
     scaler_feature_names_in_ sc' = scaler_feature_names_in_ sc →
     transform sc' (aligned (features req) (scaler_features sc fc))
       = inr (take (length (scaler_features sc fc)) scaled) →
     predict round (Build_globals (Some md) (Some sc') (Some fc)) req
     = predict round g req).
Proof.
  intros Hm Hs Hf Htr. rewrite (predict_loaded round g md sc fc req Hm Hs Hf). split.
  - intros Hshort.
    rewrite (predict_final_df_raises round md sc fc req
               [EvTransform (aligned (features req) (scaler_features sc fc))]
               (Exc "IndexError"
                  ("index " +:+ pretty (length scaled) +:+
                   " is out of bounds for axis 1 with size " +:+ pretty (length scaled))));
      [done|].
    rewrite final_df_unfold. simpl. rewrite Htr.
    by rewrite update_scaled_columns_short by (simpl; lia).
  - intros Hwide. split.
    + destruct (final_df_returns md sc fc req scaled Htr Hwide) as (df & _ & Hrun & _).
      by exists df.
    + intros sc' Hnames Htr'. apply predict_final_df_ext.
      assert (scaler_features sc' fc = scaler_features sc fc) as Hsf
        by (unfold scaler_features; by rewrite Hnames).
      rewrite !final_df_unfold. simpl. rewrite Hsf, Htr, Htr'.
      destruct (update_scaled_columns_take (scaler_features sc fc) 0
                  (length (scaler_features sc fc)) scaled
                  (aligned (features req) (model_features md fc))) as [->|?];
        [simpl; lia | done | simpl in *; lia].
Qed.

Lemma predict_transform_width_witness :
  (model (loaded model_all scaler_narrow) = Some model_all ∧
   scaler (loaded model_all scaler_narrow) = Some scaler_narrow ∧
   transform scaler_narrow [("age", VInt 48); ("bmi", VInt 0)] = inr [0.625%float] ∧
   length [0.625%float] < length ["age"; "bmi"]) ∧
  ∀ round,
    predict round (loaded model_all scaler_narrow) {| features := {[ "age" := VInt 48 ]} |}
    = ([EvTransform [("age", VInt 48); ("bmi", VInt 0)];
        EvLogError "Prediction error: index 1 is out of bounds for axis 1 with size 1"],
       inl (HTTPException 500
              "Prediction failed: index 1 is out of bounds for axis 1 with size 1")).
Proof.
  split; [split_and!; [reflexivity..|simpl; lia]|]. intros round.
  pose proof (predict_transform_width round (loaded model_all scaler_narrow)
                model_all scaler_narrow ["age"; "bmi"; "gender"]
                {| features := {[ "age" := VInt 48 ]} |} [0.625%float]
                eq_refl eq_refl eq_refl eq_refl) as [Hnarrow _].
  apply Hnarrow. simpl. lia.
Defined.

(** ** Values that are not numbers *)

(** [final_df] always calls the scaler, once, and does nothing else that is
    visible. *)
Lemma final_df_trace (md : Model) (sc : Scaler) (fc : list string)
    (req : HealthFeatures) :
  ∃ r, final_df md sc fc req
       = ([EvTransform (aligned (features req) (scaler_features sc fc))], r).
Proof.
  rewrite final_df_unfold. simpl.
  destruct (transform sc _) as [e|scaled]; [by eexists|].
  destruct (decide (length (scaler_features sc fc) ≤ length scaled)) as [Hwide|Hshort].
  - destruct (update_scaled_columns_spec (scaler_features sc fc) 0 scaled
                (aligned (features req) (model_features md fc)))
      as (df & _ & -> & _); [simpl; lia|]. by eexists.
  - rewrite update_scaled_columns_short by (simpl; lia). by eexists.
Qed.

(** The classifier is called at most once, on the values of the frame
    [final_df] returned. *)
Lemma predict_classifier_input (round : float → Z → float) (md : Model)
    (sc : Scaler) (fc : list string) (req : HealthFeatures) (X : list pyval) :
  EvPredictProba X ∈ (predict round (Build_globals (Some md) (Some sc) (Some fc)) req).1 →
  ∃ df, final_df md sc fc req
        = ([EvTransform (aligned (features req) (scaler_features sc fc))], inr df) ∧
        X = values df.
Proof.
  destruct (final_df_trace md sc fc req) as [r Hrun].
  unfold predict, try_except. simpl. rewrite Hrun. simpl.
  destruct r as [e|df]; simpl.
  - intros Hin. repeat (apply elem_of_cons in Hin as [?|Hin]; [done|]).
    by apply elem_of_nil in Hin.
  - intros Hin. exists df. split; [done|].
    destruct (predict_proba md (values df)) as [e|proba]; simpl in Hin.
    + apply elem_of_cons in Hin as [?|Hin]; [done|].
      apply elem_of_cons in Hin as [?|Hin]; [by simplify_eq|].
      apply elem_of_cons in Hin as [?|Hin]; [done|]. by apply elem_of_nil in Hin.
    + unfold getitem in Hin. destruct (proba !! 1) as [p|]; simpl in Hin.
      * destruct (get_risk_metadata p) as [[[? ?] ?] ?]. simpl in Hin.
        apply elem_of_cons in Hin as [?|Hin]; [done|].
        apply elem_of_cons in Hin as [?|Hin]; [by simplify_eq|].
        by apply elem_of_nil in Hin.
      * apply elem_of_cons in Hin as [?|Hin]; [done|].
        apply elem_of_cons in Hin as [?|Hin]; [by simplify_eq|].
        apply elem_of_cons in Hin as [?|Hin]; [done|]. by apply elem_of_nil in Hin.
Qed.

(** C9 as stated fails on the error kind. The string ["abc"] under [age], a
    name of both schemas, is handed to the scaler as given; the scaler of the
    example refuses it, and what the caller gets is the [HTTPException(500)]
    "Prediction failed: ..." of the handler's one [except] clause. The same
    string under [gender], a name of the model's schema only, reaches the
    classifier as given, and its refusal ends the same way. A request of
    numbers only that fails for another reason, here a classifier answering
    with one probability, gets that very exception class and status code:
    no error kind sets a value that is not a number apart. *)
Lemma predict_non_numeric_error_not_distinct :
  (λ round, predict round (loaded model_all scaler_age_bmi)
              {| features := {[ "age" := VStr "abc" ]} |})
  = (λ _, ([EvTransform [("age", VStr "abc"); ("bmi", VInt 0)];
            EvLogError "Prediction error: could not convert string to float: 'abc'"],
           inl (HTTPException 500
                  "Prediction failed: could not convert string to float: 'abc'")))
  ∧
  (λ round, predict round (loaded model_all scaler_age_bmi)
              {| features := {[ "age" := VInt 48; "gender" := VStr "abc" ]} |})
  = (λ _, ([EvTransform [("age", VInt 48); ("bmi", VInt 0)];
            EvPredictProba [VStr "abc"; VFloat (-5); VFloat 1; VInt 0];
            EvLogError "Prediction error: could not convert string to float: 'abc'"],
           inl (HTTPException 500
                  "Prediction failed: could not convert string to float: 'abc'")))
  ∧
  (λ round, predict round (loaded model_one_class scaler_age_bmi)
              {| features := {[ "age" := VInt 48 ]} |})
  = (λ _, ([EvTransform [("age", VInt 48); ("bmi", VInt 0)];
            EvPredictProba [VFloat 0; VFloat (-5); VFloat 1; VFloat 0];
            EvLogError "Prediction error: index 1 is out of bounds for axis 0 with size 1"],
           inl (HTTPException 500
                  "Prediction failed: index 1 is out of bounds for axis 0 with size 1"))).
Proof. split_and!; reflexivity. Qed.

(** C9, amended: [predict] has no coercion step and no error kind of its
    own for a value that is not a number. Once the artifacts are loaded, for
    a value of any kind that a request holds under a name of a schema,
    (1) under a name of the scaler's schema, the value is in the row the
        scaler is called on, as given, never replaced by the fill value;
    (2) under a name of the model's schema only, the value is in the row the
        classifier is called on, as given, except that an integer is the
        nearest [float64] when the row is cast to floats: what is not a number
        arrives unchanged;
    (3) when the scaler raises on its row, or the classifier on its own, the
        request ends as [HTTPException(500)] with detail
        ["Prediction failed: " + str(e)];
    (4) and so does every request that fails while it is handled, after one
        [logger.error]: no failure has another error kind. *)
Theorem predict_non_numeric_values (round : float → Z → float) (g : globals)
    (md : Model) (sc : Scaler) (fc : list string) :
  model g = Some md → scaler g = Some sc → feature_columns g = Some fc →
  (∀ req i k v, scaler_features sc fc !! i = Some k → features req !! k = Some v →
     ∃ t, (predict round g req).1
          = EvTransform (aligned (features req) (scaler_features sc fc)) :: t ∧
          aligned (features req) (scaler_features sc fc) !! i = Some (k, v))
  ∧
  (∀ req j k v X, k ∉ scaler_features sc fc → model_features md fc !! j = Some k →
     features req !! k = Some v →
     EvPredictProba X ∈ (predict round g req).1 →
     X !! j = Some v ∨
     ∃ n, v = VInt n ∧ X !! j = Some (VFloat (float64_of_int n)))
  ∧
  (∀ req e,
     transform sc (aligned (features req) (scaler_features sc fc)) = inl e →
     (predict round g req).2
     = inl (HTTPException 500 ("Prediction failed: " +:+ exc_str e)))
  ∧
  (∀ req X e, EvPredictProba X ∈ (predict round g req).1 →
     predict_proba md X = inl e →
     (predict round g req).2
     = inl (HTTPException 500 ("Prediction failed: " +:+ exc_str e)))
  ∧
  (∀ req t e, predict round g req = (t, inl e) →
     ∃ msg, e = HTTPException 500 ("Prediction failed: " +:+ msg) ∧
            last t = Some (EvLogError ("Prediction error: " +:+ msg))).
Proof.
  intros Hm Hs Hf. split_and!.
  - intros req i k v Hi Hv.
    rewrite (predict_loaded round g md sc fc _ Hm Hs Hf).
    destruct (final_df_trace md sc fc req) as [r Hrun].
    unfold predict, try_except. simpl. rewrite Hrun. simpl.
    assert (aligned (features req) (scaler_features sc fc) !! i = Some (k, v)) as Hcell.
    { rewrite lookup_aligned, Hi. simpl. by rewrite Hv. }
    destruct r as [e|df]; simpl; [by eexists|].
    destruct (predict_proba md (values df)) as [e|proba]; simpl; [by eexists|].
    destruct (getitem proba 1 ≫= _) as [t [e|resp]]; simpl; by eexists.
  - intros req j k v X Hks Hkm Hv.
    rewrite (predict_loaded round g md sc fc _ Hm Hs Hf). intros Hin.
    apply predict_classifier_input in Hin as (df & Hrun & ->).
    destruct (final_df_inr_width md sc fc req _ df Hrun) as (scaled & Htr & Hlen).
    destruct (final_df_returns md sc fc req scaled Htr Hlen)
      as (df' & extra & Hrun' & Hcols & _ & Hcells).
    rewrite Hrun in Hrun'. simplify_eq.
    assert (columns df' !! j = Some k) as Hlabel.
    { rewrite Hcols. by apply lookup_app_l_Some. }
    unfold columns in Hlabel. rewrite list_lookup_fmap in Hlabel.
    destruct (df' !! j) as [[c x]|] eqn:Hdf; simplify_eq/=.
    assert (x = v) as ->.
    { destruct (Hcells j k x Hdf) as [[_ Hraw]|(i & y & [Hi _] & _)].
      - rewrite lookup_aligned, Hkm in Hraw. simpl in Hraw. rewrite Hv in Hraw.
        by simplify_eq/=.
      - destruct Hks. by eapply list_elem_of_lookup_2. }
    by apply lookup_values with k.
  - intros req e Htr. rewrite (predict_loaded round g md sc fc _ Hm Hs Hf).
    rewrite (predict_final_df_raises round md sc fc req
               [EvTransform (aligned (features req) (scaler_features sc fc))] e); [done|].
    rewrite final_df_unfold. simpl. by rewrite Htr.
  - intros req X e. rewrite (predict_loaded round g md sc fc _ Hm Hs Hf).
    intros Hin Hp. apply predict_classifier_input in Hin as (df & Hrun & ->).
    unfold predict, try_except. simpl. rewrite Hrun. simpl. by rewrite Hp.
  - intros req t e. by apply predict_error_is_500 with md sc fc.
Qed.

Lemma predict_non_numeric_values_witness :
  (model (loaded model_all scaler_age_bmi) = Some model_all ∧
   scaler (loaded model_all scaler_age_bmi) = Some scaler_age_bmi ∧
   feature_columns (loaded model_all scaler_age_bmi) = Some ["age"; "bmi"; "gender"]) ∧
  ∀ round,
    (∃ t, (predict round (loaded model_all scaler_age_bmi)
             {| features := {[ "age" := VStr "abc" ]} |}).1
          = EvTransform [("age", VStr "abc"); ("bmi", VInt 0)] :: t ∧
          [("age", VStr "abc"); ("bmi", VInt 0)] !! 0 = Some ("age", VStr "abc"))
    ∧
    (EvPredictProba [VStr "abc"; VFloat (-5); VFloat 1; VInt 0]
       ∈ (predict round (loaded model_all scaler_age_bmi)
            {| features := {[ "age" := VInt 48; "gender" := VStr "abc" ]} |}).1 ∧
     ([VStr "abc"; VFloat (-5); VFloat 1; VInt 0] !! 0 = Some (VStr "abc") ∨
      ∃ n, VStr "abc" = VInt n ∧
           [VStr "abc"; VFloat (-5); VFloat 1; VInt 0] !! 0
           = Some (VFloat (float64_of_int n))))
    ∧
    (transform scaler_age_bmi [("age", VStr "abc"); ("bmi", VInt 0)]
       = inl (Exc "ValueError" "could not convert string to float: 'abc'") ∧
     (predict round (loaded model_all scaler_age_bmi)
        {| features := {[ "age" := VStr "abc" ]} |}).2
     = inl (HTTPException 500
              "Prediction failed: could not convert string to float: 'abc'")).
Proof.
  split; [by split_and!|]. intros round.
  pose proof (predict_non_numeric_values round (loaded model_all scaler_age_bmi)
                model_all scaler_age_bmi ["age"; "bmi"; "gender"]
                eq_refl eq_refl eq_refl) as (Hscaler & Hmodel & Hrefused & _).
  split; [|split].
  - exact (Hscaler {| features := {[ "age" := VStr "abc" ]} |} 0 "age" (VStr "abc")
             eq_refl eq_refl).
  - assert (EvPredictProba [VStr "abc"; VFloat (-5); VFloat 1; VInt 0]
              ∈ (predict round (loaded model_all scaler_age_bmi)
                   {| features := {[ "age" := VInt 48; "gender" := VStr "abc" ]} |}).1)
      as Hcall by (apply elem_of_cons; right; apply elem_of_cons; by left).
    split; [exact Hcall|].
    apply (Hmodel {| features := {[ "age" := VInt 48; "gender" := VStr "abc" ]} |}
             0 "gender" (VStr "abc")); [|reflexivity|reflexivity|exact Hcall].
    intros Hin. repeat (apply elem_of_cons in Hin as [?|Hin]; [done|]).
    by apply elem_of_nil in Hin.
  - split; [reflexivity|].
    exact (Hrefused {| features := {[ "age" := VStr "abc" ]} |} _ eq_refl).
Defined.

(** ** [health_check] *)

(** C10: [health_check] answers [status = "healthy"] in every state of the
    globals, and [artifacts_loaded] is true exactly when the model, the
    scaler and the feature-column list are all loaded; the answer has no
    other field. *)
Theorem health_check_status (g : globals) :
  health_check g !! "status" = Some (VStr "healthy") ∧
  dom (health_check g) = {[ "status"; "artifacts_loaded" ]} ∧
  ∃ b, health_check g !! "artifacts_loaded" = Some (VBool b) ∧
       (b = true ↔ model g ≠ None ∧ scaler g ≠ None ∧ feature_columns g ≠ None).
Proof.
  unfold health_check. split_and!.
  - by rewrite lookup_insert_eq.
  - by rewrite dom_insert_L, dom_singleton_L.
  - eexists. split.
    + rewrite lookup_insert_ne by done. by rewrite lookup_singleton_eq.
    + rewrite !andb_true_iff, !bool_decide_eq_true. tauto.
Qed.

(** Before [lifespan] has run (the state the test client of [test_main.py]
    sees) and once the three artifacts are loaded. *)
Lemma health_check_examples :
  health_check not_loaded
  = {[ "status" := VStr "healthy"; "artifacts_loaded" := VBool false ]} ∧
  health_check scaler_not_loaded
  = {[ "status" := VStr "healthy"; "artifacts_loaded" := VBool false ]} ∧
  health_check (loaded model_all scaler_age_bmi)
  = {[ "status" := VStr "healthy"; "artifacts_loaded" := VBool true ]}.
Proof. split_and!; reflexivity. Qed.

(** * Binary64 arithmetic behind [get_risk_metadata] *)

(** A Python float is a binary64 number. Each primitive operation on
    [float] is specified by the operation of [SpecFloat] on the decoded
    numbers ([Prim2SF]); a decoded finite number is a sign, a mantissa [m] and
    an exponent [e], of value [m * 2^e], and "at most [2^k]" is written
    [m <= 2^(k - e)]. *)

(** ** Comparisons *)

(** Swapping the operands of a comparison reverses its outcome. *)
Lemma SFcompare_antisym (x y : spec_float) :
  SFcompare y x = CompOpp <$> SFcompare x y.
Proof.
  destruct x as [sx|sx| |sx mx ex], y as [sy|sy| |sy my ey]; simpl;
    try reflexivity; try (by destruct sx); try (by destruct sy);
    try (by destruct sx, sy).
  change (PosDef.Pos.compare_cont Eq) with Pos.compare.
  destruct sx, sy; simpl; try reflexivity;
    rewrite (Z.compare_antisym ex ey), (Pos.compare_antisym mx my);
    destruct (ex ?= ey)%Z; simpl; try reflexivity;
    by destruct (mx ?= my)%positive.
Qed.

(** [<=] on decoded numbers is transitive (it is false on NaN). *)
Lemma SFleb_trans (x y z : spec_float) :
  SFleb x y = true → SFleb y z = true → SFleb x z = true.
Proof.
  unfold SFleb.
  destruct x as [sx|sx| |sx mx ex], y as [sy|sy| |sy my ey], z as [sz|sz| |sz mz ez];
    simpl; try done;
    try (destruct sx; simpl; try done); try (destruct sy; simpl; try done);
    try (destruct sz; simpl; try done);
    change (PosDef.Pos.compare_cont Eq) with Pos.compare;
    destruct (Z.compare_spec ex ey), (Z.compare_spec ey ez), (Z.compare_spec ex ez);
    simpl; try done; try lia;
    destruct (Pos.compare_spec mx my), (Pos.compare_spec my mz), (Pos.compare_spec mx mz);
    simpl; try done; try lia.
Qed.

(** [x <= y] excludes [y < x]. *)
Lemma leb_ltb_false (x y : float) : (x <=? y)%float = true → (y <? x)%float = false.
Proof.
  rewrite leb_spec, ltb_spec. unfold SFleb, SFltb.
  rewrite (SFcompare_antisym (Prim2SF x) (Prim2SF y)).
  by destruct (SFcompare (Prim2SF x) (Prim2SF y)) as [[]|].
Qed.

Lemma leb_trans (x y z : float) :
  (x <=? y)%float = true → (y <=? z)%float = true → (x <=? z)%float = true.
Proof. rewrite !leb_spec. apply SFleb_trans. Qed.

(** ** Rounding *)

Section Binary64.
Local Open Scope Z_scope.

Lemma fexp64 (e : Z) : fexp prec emax e = Z.max (e - 53) (-1074).
Proof. reflexivity. Qed.

(** Number of binary digits. *)
Lemma digits2_pos_bounds (m : positive) :
  2 ^ (Z.pos (digits2_pos m) - 1) <= Z.pos m < 2 ^ Z.pos (digits2_pos m).
Proof.
  induction m as [m IH|m IH|]; simpl digits2_pos.
  - rewrite Pos2Z.inj_succ. replace (Z.succ (Z.pos (digits2_pos m)) - 1) with (Z.pos (digits2_pos m)) by lia.
    rewrite Z.pow_succ_r by lia.
    replace (2 ^ Z.pos (digits2_pos m)) with (2 * 2 ^ (Z.pos (digits2_pos m) - 1)) in *
      by (rewrite <- Z.pow_succ_r by lia; f_equal; lia).
    lia.
  - rewrite Pos2Z.inj_succ. replace (Z.succ (Z.pos (digits2_pos m)) - 1) with (Z.pos (digits2_pos m)) by lia.
    rewrite Z.pow_succ_r by lia.
    replace (2 ^ Z.pos (digits2_pos m)) with (2 * 2 ^ (Z.pos (digits2_pos m) - 1)) in *
      by (rewrite <- Z.pow_succ_r by lia; f_equal; lia).
    lia.
  - simpl. lia.
Qed.

(** [SpecFloat.iter_pos] is iteration [p] times. *)
Lemma iter_pos_nat {A} (f : A -> A) (p : positive) (x : A) :
  SpecFloat.iter_pos f p x = Nat.iter (Pos.to_nat p) f x.
Proof.
  revert x. induction p as [p IH|p IH|]; intros x; simpl SpecFloat.iter_pos.
  - rewrite !IH, Pos2Nat.inj_xI. 
    replace (S (2 * Pos.to_nat p))%nat with (Pos.to_nat p + (Pos.to_nat p + 1))%nat by lia.
    rewrite !Nat.iter_add. reflexivity.
  - rewrite !IH, Pos2Nat.inj_xO.
    replace (2 * Pos.to_nat p)%nat with (Pos.to_nat p + Pos.to_nat p)%nat by lia.
    rewrite Nat.iter_add. reflexivity.
  - reflexivity.
Qed.

(** One right shift halves the mantissa; the record stays exact only when
    it was exact and the bit shifted out is 0. *)
Lemma shr_1_spec (mrs : shr_record) :
  0 <= shr_m mrs ->
  shr_m (shr_1 mrs) = shr_m mrs / 2 /\
  (shr_m mrs mod 2 = 0 -> loc_of_shr_record mrs = loc_Exact ->
   loc_of_shr_record (shr_1 mrs) = loc_Exact).
Proof.
  destruct mrs as [m r s]. simpl. intros Hm.
  destruct m as [|[p|p|]|p]; simpl; try lia.
  - split; [reflexivity|]. by destruct r, s.
  - split; [rewrite Pos2Z.inj_xI; apply Z.div_unique with 1; lia|].
    rewrite Pos2Z.inj_xI. intros Hodd. exfalso.
    rewrite Z.add_comm, Z.mul_comm, Z.mod_add in Hodd by lia. discriminate.
  - split; [rewrite Pos2Z.inj_xO; apply Z.div_unique with 0; lia|].
    by destruct r, s.
  - split; [reflexivity|]. intros Hodd; discriminate.
Qed.

Lemma iter_shr_1_spec (n : nat) (mrs : shr_record) :
  0 <= shr_m mrs ->
  shr_m (Nat.iter n shr_1 mrs) = shr_m mrs / 2 ^ Z.of_nat n /\
  (shr_m mrs mod 2 ^ Z.of_nat n = 0 -> loc_of_shr_record mrs = loc_Exact ->
   loc_of_shr_record (Nat.iter n shr_1 mrs) = loc_Exact).
Proof.
  intros Hm. induction n as [|n [IHm IHl]].
  - simpl. rewrite Z.div_1_r. auto.
  - simpl Nat.iter. rewrite Nat2Z.inj_succ, Z.pow_succ_r by lia.
    assert (0 < 2 ^ Z.of_nat n) as Hpow by (apply Z.pow_pos_nonneg; lia).
    assert (0 <= shr_m (Nat.iter n shr_1 mrs)) as Hpos.
    { rewrite IHm. apply Z.div_pos; lia. }
    destruct (shr_1_spec _ Hpos) as [Hstep Hloc]. split.
    + rewrite Hstep, IHm, Z.div_div by lia. f_equal. lia.
    + intros Hmod Hexact.
      apply Z.mod_divide in Hmod as [q Hq]; [|lia].
      apply Hloc.
      * rewrite IHm, Hq. replace (q * (2 * 2 ^ Z.of_nat n)) with (q * 2 * 2 ^ Z.of_nat n) by lia.
        rewrite Z.div_mul by lia. apply Z.mod_mul. lia.
      * apply IHl; [|done]. rewrite Hq.
        replace (q * (2 * 2 ^ Z.of_nat n)) with (q * 2 * 2 ^ Z.of_nat n) by lia.
        apply Z.mod_mul. lia.
Qed.

(** [shr] by [n > 0] positions from an exact record. *)
Lemma shr_spec (m e n : Z) :
  0 <= m -> 0 < n ->
  exists mrs, shr (shr_record_of_loc m loc_Exact) e n = (mrs, e + n) /\
    shr_m mrs = m / 2 ^ n /\
    (m mod 2 ^ n = 0 -> loc_of_shr_record mrs = loc_Exact).
Proof.
  intros Hm Hn. destruct n as [|p|p]; try lia.
  unfold shr. eexists. split; [reflexivity|].
  rewrite iter_pos_nat.
  destruct (iter_shr_1_spec (Pos.to_nat p) (shr_record_of_loc m loc_Exact) Hm) as [H1 H2].
  rewrite positive_nat_Z in *. simpl in *. split; [done|]. intros Hmod. by apply H2.
Qed.

Lemma shr_nop (mrs : shr_record) (e n : Z) : n <= 0 -> shr mrs e n = (mrs, e).
Proof. destruct n; [done|lia|done]. Qed.

Lemma round_nearest_even_cases (m : Z) (l : location) :
  (round_nearest_even m l = m \/ round_nearest_even m l = m + 1) /\
  (l = loc_Exact -> round_nearest_even m l = m).
Proof.
  split; [|by intros ->].
  destruct l as [|[]]; simpl; auto. destruct (IntDef.Z.even m); auto.
Qed.

(** Dividing by [2^n] a number that is at most [2^(a+n)]: the quotient is
    at most [2^a], and so is its successor when the division is inexact. *)
Lemma pow2_div_le (m a n : Z) :
  0 <= n -> 0 <= a -> m <= 2 ^ (a + n) ->
  m / 2 ^ n <= 2 ^ a /\ (m mod 2 ^ n <> 0 -> m / 2 ^ n + 1 <= 2 ^ a).
Proof.
  intros Hn Ha Hm. rewrite Z.pow_add_r in Hm by lia.
  assert (0 < 2 ^ n) as Hpow by (apply Z.pow_pos_nonneg; lia).
  split.
  - apply Z.div_le_upper_bound; lia.
  - intros Hmod. assert (m <> 2 ^ a * 2 ^ n) as Hne.
    { intros ->. apply Hmod. apply Z.mod_mul. lia. }
    assert (m / 2 ^ n < 2 ^ a); [|lia].
    apply Z.div_lt_upper_bound; lia.
Qed.

Lemma pow2_le_inv (a b : Z) : 0 <= b -> 2 ^ a <= 2 ^ b -> a <= b.
Proof. intros Hb Hle. apply (Z.pow_le_mono_r_iff 2); [lia|done|done]. Qed.

(** Rounding a positive mantissa that represents at most [2^k] gives zero or
    a finite number that is still at most [2^k]. *)
Lemma binary_round_aux_le (sx : bool) (mx : positive) (ex k : Z) :
  ex <= k -> -1074 <= k -> k <= 971 -> Z.pos mx <= 2 ^ (k - ex) ->
  match binary_round_aux prec emax sx (Z.pos mx) ex loc_Exact with
  | S754_zero s => s = sx
  | S754_finite s m e => s = sx /\ e <= k /\ Z.pos m <= 2 ^ (k - e)
  | _ => False
  end.
Proof.
  intros Hex Hk Hk' Hmx.
  pose proof (digits2_pos_bounds mx) as [Hd _].
  assert (Z.pos (digits2_pos mx) - 1 <= k - ex) as Hdk.
  { apply pow2_le_inv; [lia|]. lia. }
  unfold binary_round_aux, shr_fexp. rewrite fexp64. simpl Zdigits2.
  set (e1 := Z.max (Z.pos (digits2_pos mx) + ex - 53) (-1074)).
  assert (e1 <= k) as He1 by lia.
  destruct (Z_le_gt_dec (e1 - ex) 0) as [Hnop|Hshift].
  - rewrite shr_nop by done. simpl. rewrite fexp64. simpl Zdigits2. fold e1.
    rewrite shr_nop by done. simpl.
    replace (ex <=? emax - prec) with true
      by (symmetry; apply Z.leb_le; unfold emax, prec; lia).
    auto.
  - destruct (shr_spec (Z.pos mx) ex (e1 - ex)) as (mrs1 & -> & Hm1 & Hl1); [lia..|].
    replace (ex + (e1 - ex)) with e1 by lia.
    destruct (pow2_div_le (Z.pos mx) (k - e1) (e1 - ex)) as [Hfloor Hceil]; [lia..| |].
    { by replace (k - e1 + (e1 - ex)) with (k - ex) by lia. }
    rewrite <- Hm1 in Hfloor, Hceil.
    assert (0 <= shr_m mrs1) as Hm1pos.
    { rewrite Hm1. apply Z.div_pos; [lia|]. apply Z.pow_pos_nonneg; lia. }
    set (m2 := round_nearest_even (shr_m mrs1) (loc_of_shr_record mrs1)).
    assert (0 <= m2 <= 2 ^ (k - e1)) as Hm2.
    { destruct (round_nearest_even_cases (shr_m mrs1) (loc_of_shr_record mrs1))
        as [[Heq|Heq] Hexact]; fold m2 in Heq; [lia|].
      destruct (decide (Z.pos mx mod 2 ^ (e1 - ex) = 0)) as [Hmod|Hmod].
      - fold m2 in Hexact. rewrite Hexact by auto. lia.
      - specialize (Hceil Hmod). lia. }
    rewrite fexp64.
    set (e2 := Z.max (Zdigits2 m2 + e1 - 53) (-1074)).
    destruct (Z_le_gt_dec (e2 - e1) 0) as [Hnop2|Hshift2].
    + rewrite shr_nop by done. simpl.
      destruct m2 as [|p2|p2]; [done| |lia].
      replace (e1 <=? emax - prec) with true
        by (symmetry; apply Z.leb_le; unfold emax, prec; lia).
      split_and!; [done|done|lia].
    + destruct (shr_spec m2 e1 (e2 - e1)) as (mrs3 & -> & Hm3 & _); [lia..|].
      replace (e1 + (e2 - e1)) with e2 by lia.
      assert (0 < 2 ^ (e2 - e1)) as Hpow by (apply Z.pow_pos_nonneg; lia).
      destruct (shr_m mrs3) as [|p3|p3] eqn:Hp3; [done| |].
      * assert (2 ^ (e2 - e1) <= m2) as Hbig.
        { destruct (Z_lt_le_dec m2 (2 ^ (e2 - e1))) as [Hsmall|]; [|done].
          rewrite Z.div_small in Hm3 by lia. lia. }
        assert (e2 - e1 <= k - e1) as He2 by (apply pow2_le_inv; lia).
        destruct (pow2_div_le m2 (k - e2) (e2 - e1)) as [Hfloor3 _]; [lia..| |].
        { replace (k - e2 + (e2 - e1)) with (k - e1) by lia. lia. }
        replace (e2 <=? emax - prec) with true
          by (symmetry; apply Z.leb_le; unfold emax, prec; lia).
        split_and!; [done|lia|lia].
      * assert (0 <= m2 / 2 ^ (e2 - e1)) by (apply Z.div_pos; lia). lia.
Qed.

(** Aligning a mantissa on a smaller exponent keeps the value. *)
Lemma shl_align_spec (mx : positive) (ex ex' : Z) :
  (shl_align mx ex ex').2 = Z.min ex ex' /\
  Z.pos (shl_align mx ex ex').1 = Z.pos mx * 2 ^ (ex - Z.min ex ex').
Proof.
  unfold shl_align. destruct (ex' - ex) as [|d|d] eqn:Hd; simpl.
  - replace (Z.min ex ex') with ex by lia. rewrite Z.sub_diag. lia.
  - replace (Z.min ex ex') with ex by lia. rewrite Z.sub_diag. lia.
  - replace (Z.min ex ex') with ex' by lia. split; [done|].
    replace (ex - ex') with (Z.pos d) by lia.
    change (PosDef.Pos.iter xO mx d) with (shift_pos d mx).
    rewrite shift_pos_correct, Z.pow_pos_fold. lia.
Qed.

Lemma binary_round_le (sx : bool) (mx : positive) (ex k : Z) :
  ex <= k -> -1074 <= k -> k <= 971 -> Z.pos mx <= 2 ^ (k - ex) ->
  match binary_round prec emax sx mx ex with
  | S754_zero s => s = sx
  | S754_finite s m e => s = sx /\ e <= k /\ Z.pos m <= 2 ^ (k - e)
  | _ => False
  end.
Proof.
  intros Hex Hk Hk' Hmx. unfold binary_round.
  destruct (shl_align_spec mx ex (fexp prec emax (Z.pos (digits2_pos mx) + ex)))
    as [He Hm].
  destruct (shl_align mx ex _) as [mz ez]. simpl in He, Hm. rewrite <- He in Hm.
  apply binary_round_aux_le; [lia..|].
  rewrite Hm. replace (k - ez) with (k - ex + (ex - ez)) by lia.
  rewrite Z.pow_add_r by lia.
  apply Z.mul_le_mono_nonneg_r; [|done]. apply Z.pow_nonneg. lia.
Qed.

Lemma binary_normalize_le (z ez k : Z) :
  ez <= k -> -1074 <= k -> k <= 971 -> Z.abs z <= 2 ^ (k - ez) ->
  match binary_normalize prec emax z ez false with
  | S754_zero _ => True
  | S754_finite _ m e => e <= k /\ Z.pos m <= 2 ^ (k - e)
  | _ => False
  end.
Proof.
  intros Hez Hk Hk' Hz. unfold binary_normalize.
  destruct z as [|p|p]; [done| |].
  - pose proof (binary_round_le false p ez k Hez Hk Hk' Hz) as H.
    destruct (binary_round _ _ _ _ _); tauto.
  - pose proof (binary_round_le true p ez k Hez Hk Hk' Hz) as H.
    destruct (binary_round _ _ _ _ _); tauto.
Qed.

(** What [valid_binary] and a comparison with [1.0] say of a positive
    finite number. *)
Lemma valid_finite_digits (s : bool) (m : positive) (e : Z) :
  valid_binary (S754_finite s m e) = true ->
  -1074 <= e /\ Z.pos (digits2_pos m) <= 53 /\
  (-1074 < e -> Z.pos (digits2_pos m) = 53).
Proof.
  unfold SpecFloat.valid_binary, bounded, canonical_mantissa.
  rewrite andb_true_iff, fexp64. intros [Hc _]. apply Z.eqb_eq in Hc. lia.
Qed.

(** [<=] between two positive finite numbers: exponents first, then
    mantissas. *)
Lemma SFleb_finite_pos (m h : positive) (e eh : Z) :
  SFleb (S754_finite false m e) (S754_finite false h eh) = true <->
  e < eh \/ (e = eh /\ Z.pos m <= Z.pos h).
Proof.
  unfold SFleb. cbn [SFcompare].
  change (PosDef.Pos.compare_cont Eq m h) with (Z.pos m ?= Z.pos h).
  destruct (Z.compare_spec e eh), (Z.compare_spec (Z.pos m) (Z.pos h));
    split; intros Hcmp; try reflexivity; try discriminate; lia.
Qed.

Lemma m52_pow2 : Z.pos m52 = 2 ^ 52.
Proof. vm_compute. reflexivity. Qed.

Lemma finite_le_one (m : positive) (e : Z) :
  valid_binary (S754_finite false m e) = true ->
  SFleb (S754_finite false m e) (S754_finite false m52 (-52)) = true <->
  e <= 0 /\ Z.pos m <= 2 ^ (0 - e).
Proof.
  intros Hvalid. destruct (valid_finite_digits _ _ _ Hvalid) as (He & Hd & Hnormal).
  pose proof (digits2_pos_bounds m) as [Hlo Hhi]. clear Hvalid.
  rewrite SFleb_finite_pos, m52_pow2. split.
  - intros [Hlt|[-> Hm]].
    + split; [lia|].
      assert (2 ^ Z.pos (digits2_pos m) <= 2 ^ (0 - e)); [|lia].
      apply Z.pow_le_mono_r; lia.
    + split; [lia|]. exact Hm.
  - intros [He0 Hm].
    destruct (Z_lt_le_dec e (-52)) as [Hlt|Hge]; [by left|right].
    rewrite Hnormal in Hlo by lia.
    assert (52 <= 0 - e) as He52 by (apply pow2_le_inv; lia).
    assert (e = -52) as -> by lia. split; [reflexivity|exact Hm].
Qed.

(** Subtracting one half from a valid number between 0 and 1 gives zero or a
    finite number of magnitude at most one half. *)
Lemma SFsub_half_le (x : spec_float) :
  valid_binary x = true ->
  SFleb (S754_zero false) x = true -> SFleb x SF_one = true ->
  match SFsub prec emax x SF_half with
  | S754_zero _ => True
  | S754_finite _ m e => e <= -1 /\ Z.pos m <= 2 ^ (-1 - e)
  | _ => False
  end.
Proof.
  intros Hvalid H0 H1. destruct x as [s|s| |s m e].
  - cbn [SFsub SF_half]. rewrite m52_pow2. split; [lia|]. apply Z.pow_le_mono_r; lia.
  - destruct s; discriminate.
  - discriminate.
  - destruct s; [discriminate|]. clear H0.
    apply finite_le_one in H1 as [He Hm]; [|exact Hvalid].
    destruct (valid_finite_digits _ _ _ Hvalid) as (Hemin & _ & _).
    unfold SF_half. cbn [SFsub cond_Zopp].
    destruct (shl_align_spec m e (Z.min e (-53))) as [_ Hm'].
    destruct (shl_align_spec m52 (-53) (Z.min e (-53))) as [_ Hh'].
    rewrite Hm', Hh', m52_pow2.
    set (ez := Z.min e (-53)).
    replace (Z.min e ez) with ez by lia. replace (Z.min (-53) ez) with ez by lia.
    apply binary_normalize_le; [lia..|].
    rewrite <- Z.pow_add_r by lia. replace (52 + (-53 - ez)) with (-1 - ez) by lia.
    assert (0 < Z.pos m * 2 ^ (e - ez)) as Hpos.
    { apply Z.mul_pos_pos; [lia|]. apply Z.pow_pos_nonneg; lia. }
    assert (Z.pos m * 2 ^ (e - ez) <= 2 * 2 ^ (-1 - ez)) as Hle.
    { rewrite <- Z.pow_succ_r by lia. replace (Z.succ (-1 - ez)) with ((0 - e) + (e - ez)) by lia.
      rewrite Z.pow_add_r by lia. apply Z.mul_le_mono_nonneg_r; [|exact Hm].
      apply Z.pow_nonneg. lia. }
    lia.
Qed.

(** Doubling zero or a finite number of magnitude at most one half gives
    zero or a positive finite number that is at most one. *)
Lemma SFmul_two_le (x : spec_float) :
  match x with
  | S754_zero _ => True
  | S754_finite _ m e => e <= -1 /\ Z.pos m <= 2 ^ (-1 - e)
  | _ => False
  end ->
  match SFmul prec emax (SFabs x) SF_two with
  | S754_zero s => s = false
  | S754_finite s m e => s = false /\ e <= 0 /\ Z.pos m <= 2 ^ (0 - e)
  | _ => False
  end.
Proof.
  destruct x as [s|s| |s m e]; [reflexivity|intros []..|].
  intros [He Hm]. unfold SF_two. cbn [SFabs SFmul xorb].
  apply binary_round_aux_le; [lia..|].
  rewrite Pos2Z.inj_mul, m52_pow2.
  replace (0 - (e + -51)) with ((-1 - e) + 52) by lia.
  rewrite Z.pow_add_r by lia.
  apply Z.mul_le_mono_nonneg_r; [|exact Hm]. apply Z.pow_nonneg. lia.
Qed.

Lemma Prim2SF_zero : Prim2SF 0 = S754_zero false.
Proof. vm_compute. reflexivity. Qed.

Lemma Prim2SF_half : Prim2SF 0.5 = SF_half.
Proof. vm_compute. reflexivity. Qed.

Lemma Prim2SF_one : Prim2SF 1 = SF_one.
Proof. vm_compute. reflexivity. Qed.

Lemma Prim2SF_two : Prim2SF 2 = SF_two.
Proof. vm_compute. reflexivity. Qed.

End Binary64.

(** ** The risk bands and the confidence *)

(** C3: for every float [p] the level is "Low" when [p < 0.3], "Moderate"
    when [0.3 <= p < 0.7] and "High" when [p >= 0.7]; at the boundaries,
    [0.29] is Low, [0.3] and [0.69] are Moderate, [0.7] is High. *)
Theorem risk_level_bands (p : float) :
  ((p <? 0.3)%float = true → risk_level_of (get_risk_metadata p) = "Low") ∧
  ((0.3 <=? p)%float = true → (p <? 0.7)%float = true →
     risk_level_of (get_risk_metadata p) = "Moderate") ∧
  ((0.7 <=? p)%float = true → risk_level_of (get_risk_metadata p) = "High") ∧
  risk_level_of (get_risk_metadata 0.29) = "Low" ∧
  risk_level_of (get_risk_metadata 0.3) = "Moderate" ∧
  risk_level_of (get_risk_metadata 0.69) = "Moderate" ∧
  risk_level_of (get_risk_metadata 0.7) = "High".
Proof.
  split_and!; try reflexivity; unfold get_risk_metadata, risk_level_of.
  - by intros ->.
  - intros Hlo Hhi. by rewrite (leb_ltb_false _ _ Hlo), Hhi.
  - intros Hhi. rewrite (leb_ltb_false _ _ Hhi).
    assert ((0.3 <=? p)%float = true) as Hlo by (by apply leb_trans with 0.7%float).
    by rewrite (leb_ltb_false _ _ Hlo).
Qed.

Lemma risk_level_bands_witness :
  ((0.1 <? 0.3)%float = true ∧ risk_level_of (get_risk_metadata 0.1) = "Low") ∧
  (((0.3 <=? 0.5)%float = true ∧ (0.5 <? 0.7)%float = true) ∧
   risk_level_of (get_risk_metadata 0.5) = "Moderate") ∧
  ((0.7 <=? 0.9)%float = true ∧ risk_level_of (get_risk_metadata 0.9) = "High").
Proof.
  split_and!.
  - reflexivity.
  - exact (proj1 (risk_level_bands 0.1) eq_refl).
  - reflexivity.
  - reflexivity.
  - exact (proj1 (proj2 (risk_level_bands 0.5)) eq_refl eq_refl).
  - reflexivity.
  - exact (proj1 (proj2 (proj2 (risk_level_bands 0.9))) eq_refl).
Defined.

(** C6: the confidence is [abs(p - 0.5) * 2]; for every float [p] with
    [0 <= p <= 1] it lies between 0 and 1, with no clamping; it is exactly
    [0.0] at [0.5] and exactly [1.0] at [0.0] and at [1.0]. *)
Theorem confidence_unit_interval (p : float) :
  confidence_of (get_risk_metadata p) = (abs (p - 0.5) * 2)%float ∧
  ((0 <=? p)%float = true → (p <=? 1)%float = true →
   (0 <=? confidence_of (get_risk_metadata p))%float = true ∧
   (confidence_of (get_risk_metadata p) <=? 1)%float = true) ∧
  confidence_of (get_risk_metadata 0.5) = 0%float ∧
  confidence_of (get_risk_metadata 0) = 1%float ∧
  confidence_of (get_risk_metadata 1) = 1%float.
Proof.
  assert (confidence_of (get_risk_metadata p) = (abs (p - 0.5) * 2)%float) as Hconf.
  { unfold get_risk_metadata, confidence_of.
    destruct (p <? 0.3)%float; [reflexivity|]. destruct (p <? 0.7)%float; reflexivity. }
  split_and!; [exact Hconf| |reflexivity..].
  rewrite Hconf. clear Hconf. rewrite !leb_spec. intros H0 H1.
  pose proof (Prim2SF_valid (abs (p - 0.5) * 2)%float) as Hvalid.
  rewrite mul_spec, abs_spec, sub_spec in *.
  rewrite Prim2SF_zero, Prim2SF_one, Prim2SF_half, Prim2SF_two in *.
  pose proof (SFmul_two_le _ (SFsub_half_le _ (Prim2SF_valid p) H0 H1)) as Hc.
  unfold SF64mul, SF64sub in *.
  destruct (SFmul prec emax _ SF_two) as [s|s| |s m e]; try contradiction.
  - subst s. split; reflexivity.
  - destruct Hc as (-> & He & Hm). split; [reflexivity|].
    apply finite_le_one; [exact Hvalid|]. split; [exact He|exact Hm].
Qed.

Lemma confidence_unit_interval_witness :
  ((0 <=? 0.29)%float = true ∧ (0.29 <=? 1)%float = true) ∧
  (0 <=? confidence_of (get_risk_metadata 0.29))%float = true ∧
  (confidence_of (get_risk_metadata 0.29) <=? 1)%float = true.
Proof.
  split; [split; reflexivity|].
  exact (proj1 (proj2 (confidence_unit_interval 0.29)) eq_refl eq_refl).
Defined.

(** * Further properties of the handlers *)

(** ** The columns and the untouched cells of [final_df] *)

(** The labels of the frame the overlay loop returns: those it was given,
    then the new ones in order of first occurrence. *)
Lemma update_scaled_columns_columns (cols : list string) :
  ∀ (i : nat) (scaled : list float) (df df' : frame) (t : list event),
    update_scaled_columns i cols scaled df = (t, inr df') →
    columns df' = columns df ++ new_labels (columns df) cols.
Proof.
  induction cols as [|c cols IH]; intros i scaled df df' t; simpl.
  - intros [= _ ->]. by rewrite app_nil_r.
  - unfold getcol. destruct (scaled !! i) as [x|]; simpl; [|done].
    destruct (update_scaled_columns (S i) cols scaled (setitem df c (VFloat x)))
      as [t' r] eqn:Hrun.
    intros [= _ ->]. apply IH in Hrun.
    destruct (decide (c ∈ columns df)) as [Hold|Hnew].
    + by rewrite columns_setitem_old in Hrun.
    + rewrite columns_setitem_new in Hrun by done. by rewrite Hrun, <- app_assoc.
Qed.

(** [new_labels seen cols] holds the names of [cols] that [seen] lacks, and
    holds none twice. *)
Lemma elem_of_new_labels (cols : list string) :
  ∀ (seen : list string) (c : string),
    c ∈ new_labels seen cols ↔ c ∈ cols ∧ c ∉ seen.
Proof.
  induction cols as [|a cols IH]; intros seen c; simpl.
  - rewrite !elem_of_nil. tauto.
  - destruct (decide (a ∈ seen)) as [Ha|Ha].
    + rewrite IH, elem_of_cons. split; [tauto|].
      intros [[->|Hc] Hno]; [tauto|auto].
    + rewrite !elem_of_cons, IH, elem_of_app, list_elem_of_singleton.
      destruct (decide (c = a)) as [->|Hne]; [tauto|]. tauto.
Qed.

Lemma NoDup_new_labels (cols : list string) :
  ∀ seen : list string, NoDup (new_labels seen cols).
Proof.
  induction cols as [|a cols IH]; intros seen; simpl; [apply NoDup_nil_2|].
  destruct (decide (a ∈ seen)); [apply IH|].
  apply NoDup_cons. split; [|apply IH].
  rewrite elem_of_new_labels, elem_of_app, list_elem_of_singleton. tauto.
Qed.

(** Whenever the scaler returns a row at least as wide as its schema, the
    frame handed to the classifier has the model's schema as its first
    columns, followed by the scaler's names the model's schema lacks, each
    once, in the scaler's order; its width is the sum of the two lengths. *)
Theorem final_df_columns_exact (md : Model) (sc : Scaler) (fc : list string)
    (req : HealthFeatures) (scaled : list float) :
  transform sc (aligned (features req) (scaler_features sc fc)) = inr scaled →
  length (scaler_features sc fc) ≤ length scaled →
  ∃ df,
    final_df md sc fc req
      = ([EvTransform (aligned (features req) (scaler_features sc fc))], inr df) ∧
    columns df
      = model_features md fc ++ new_labels (model_features md fc) (scaler_features sc fc) ∧
    length (values df)
      = length (model_features md fc)
        + length (new_labels (model_features md fc) (scaler_features sc fc)).
Proof.
  intros Htr Hlen.
  destruct (final_df_returns md sc fc req scaled Htr Hlen) as (df & _ & Hrun & _).
  exists df. split; [done|].
  assert (columns df = model_features md fc
            ++ new_labels (model_features md fc) (scaler_features sc fc)) as Hcols.
  { rewrite final_df_unfold in Hrun. simpl in Hrun. rewrite Htr in Hrun.
    destruct (update_scaled_columns 0 _ scaled _) as [t r] eqn:Hloop.
    injection Hrun as _ ->. apply update_scaled_columns_columns in Hloop.
    unfold aligned in Hloop. by rewrite columns_reindexed in Hloop. }
  split; [done|].
  rewrite length_values, <- length_app, <- Hcols.
  unfold columns. by rewrite length_fmap.
Qed.

Lemma final_df_columns_exact_witness :
  ∃ df,
    final_df model_age_gender scaler_age_bmi []
      {| features := {[ "age" := VInt 48 ]} |}
      = ([EvTransform [("age", VInt 48); ("bmi", VInt 0)]], inr df) ∧
    columns df = ["age"; "gender"; "bmi"] ∧
    length (values df) = 3.
Proof.
  destruct (final_df_columns_exact model_age_gender scaler_age_bmi []
              {| features := {[ "age" := VInt 48 ]} |} [1; -5]%float)
    as (df & Hrun & Hcols & Hlen).
  - vm_compute. reflexivity.
  - simpl. lia.
  - exists df. split_and!; [exact Hrun|exact Hcols|exact Hlen].
Defined.

(** Whenever the scaler returns a row at least as wide as its schema, a
    column of the model's schema whose name the scaler's schema lacks holds
    what the request gave under that name, as given, or [0] when the request
    has no such field. *)
Theorem final_df_model_only_columns (md : Model) (sc : Scaler) (fc : list string)
    (req : HealthFeatures) (scaled : list float) :
  transform sc (aligned (features req) (scaler_features sc fc)) = inr scaled →
  length (scaler_features sc fc) ≤ length scaled →
  ∃ df,
    final_df md sc fc req
      = ([EvTransform (aligned (features req) (scaler_features sc fc))], inr df) ∧
    ∀ j c, model_features md fc !! j = Some c → c ∉ scaler_features sc fc →
      df !! j = Some (c, default (VInt 0) (features req !! c)).
Proof.
  intros Htr Hlen.
  destruct (final_df_returns md sc fc req scaled Htr Hlen)
    as (df & extra & Hrun & Hcols & _ & Hcells).
  exists df. split; [done|]. intros j c Hj Hc.
  assert (columns df !! j = Some c) as Hlabel.
  { rewrite Hcols. by apply lookup_app_l_Some. }
  unfold columns in Hlabel. rewrite list_lookup_fmap in Hlabel.
  destruct (df !! j) as [[c' v]|] eqn:Hdf; simplify_eq/=.
  destruct (Hcells j c v Hdf) as [[_ Hraw]|(k & x & [Hk _] & _)].
  - rewrite lookup_aligned, Hj in Hraw. simpl in Hraw. by simplify_eq.
  - destruct Hc. by eapply list_elem_of_lookup_2.
Qed.

Lemma final_df_model_only_columns_witness :
  ∃ df,
    final_df model_all scaler_age_bmi []
      {| features := {[ "age" := VInt 48; "gender" := VStr "f" ]} |}
      = ([EvTransform [("age", VInt 48); ("bmi", VInt 0)]], inr df) ∧
    ∀ j c, ["gender"; "bmi"; "age"; "smoker"] !! j = Some c → c ∉ ["age"; "bmi"] →
      df !! j = Some (c, default (VInt 0)
                          (({[ "age" := VInt 48; "gender" := VStr "f" ]}
                              : gmap string pyval) !! c)).
Proof.
  pose proof (final_df_model_only_columns model_all scaler_age_bmi []
                {| features := {[ "age" := VInt 48; "gender" := VStr "f" ]} |}
                [1; -5]%float eq_refl) as H.
  apply H. simpl. lia.
Defined.

(** When neither artifact has [feature_names_in_], both schemas are the
    fallback list. If that list has no repeated name and the scaler returns a
    row at least as wide, the classifier receives exactly the transformed
    row, cut to the list's length, under the list's names: nothing of the
    request reaches it untransformed. *)
Theorem final_df_fallback_schema (md : Model) (sc : Scaler) (fc : list string)
    (req : HealthFeatures) (scaled : list float) :
  scaler_feature_names_in_ sc = None → model_feature_names_in_ md = None →
  NoDup fc →
  transform sc (aligned (features req) fc) = inr scaled →
  length fc ≤ length scaled →
  ∃ df,
    final_df md sc fc req = ([EvTransform (aligned (features req) fc)], inr df) ∧
    columns df = fc ∧
    values df = VFloat <$> take (length fc) scaled.
Proof.
  intros Hs Hm Hnodup Htr Hlen.
  assert (scaler_features sc fc = fc) as Hsf by (unfold scaler_features; by rewrite Hs).
  assert (model_features md fc = fc) as Hmf by (unfold model_features; by rewrite Hm).
  rewrite <- Hsf in Htr at 1.
  destruct (final_df_returns md sc fc req scaled Htr) as
    (df & extra & Hrun & Hcols & Hextra & Hcells); [by rewrite Hsf|].
  rewrite Hsf, Hmf in *.
  assert (extra = []) as ->.
  { destruct extra as [|c extra]; [done|].
    destruct (Hextra c) as [[Hin Hout] _]; [by left|]. done. }
  rewrite app_nil_r in Hcols. exists df. split_and!; [done..|].
  apply values_floats.
  apply list_eq. intros j. unfold columns in *.
  rewrite !list_lookup_fmap.
  destruct (df !! j) as [[c v]|] eqn:Hdf; simpl.
  - assert (fc !! j = Some c) as Hj by (by rewrite <- Hcols, list_lookup_fmap, Hdf).
    destruct (Hcells j c v Hdf) as [[Hno _]|(k & x & [Hk _] & Hx & ->)].
    + destruct Hno. by eapply list_elem_of_lookup_2.
    + assert (k = j) as -> by (by eapply NoDup_lookup).
      rewrite lookup_take_lt by (by eapply lookup_lt_Some). by rewrite Hx.
  - assert (length fc ≤ j) as Hge.
    { rewrite <- Hcols, length_fmap. by apply lookup_ge_None. }
    by rewrite lookup_take_ge.
Qed.

Lemma final_df_fallback_schema_witness :
  ∃ df,
    final_df model_plain scaler_plain ["age"; "bmi"]
      {| features := {[ "age" := VInt 48; "gender" := VInt 1 ]} |}
      = ([EvTransform [("age", VInt 48); ("bmi", VInt 0)]], inr df) ∧
    columns df = ["age"; "bmi"] ∧
    values df = [VFloat 1; VFloat (-5)].
Proof.
  pose proof (final_df_fallback_schema model_plain scaler_plain ["age"; "bmi"]
                {| features := {[ "age" := VInt 48; "gender" := VInt 1 ]} |}
                [1; -5]%float eq_refl eq_refl) as H.
  destruct H as (df & Hrun & Hcols & Hvalues).
  - apply NoDup_cons. split; [|apply NoDup_singleton].
    intros Hin. apply list_elem_of_singleton in Hin. discriminate.
  - vm_compute. reflexivity.
  - simpl. lia.
  - exists df. split_and!; [exact Hrun|exact Hcols|exact Hvalues].
Defined.

(** ** The outcomes of [predict] *)

(** When the scaler raises, the request ends as [HTTPException(500)] carrying
    the scaler's message, after one [logger.error]; the classifier is not
    called. *)
Theorem predict_scaler_raises (round : float → Z → float) (g : globals)
    (md : Model) (sc : Scaler) (fc : list string) (req : HealthFeatures) (e : exc) :
  model g = Some md → scaler g = Some sc → feature_columns g = Some fc →
  transform sc (aligned (features req) (scaler_features sc fc)) = inl e →
  predict round g req
  = ([EvTransform (aligned (features req) (scaler_features sc fc));
      EvLogError ("Prediction error: " +:+ exc_str e)],
     inl (HTTPException 500 ("Prediction failed: " +:+ exc_str e))).
Proof.
  intros Hm Hs Hf Htr. rewrite (predict_loaded round g md sc fc req Hm Hs Hf).
  rewrite (predict_final_df_raises round md sc fc req
             [EvTransform (aligned (features req) (scaler_features sc fc))] e); [done|].
  rewrite final_df_unfold. simpl. by rewrite Htr.
Qed.

Lemma predict_scaler_raises_witness :
  transform scaler_raising [("age", VInt 48); ("bmi", VInt 0)]
    = inl (Exc "NotFittedError" "This StandardScaler instance is not fitted yet.") ∧
  ∀ round,
    predict round (loaded model_all scaler_raising) {| features := {[ "age" := VInt 48 ]} |}
    = ([EvTransform [("age", VInt 48); ("bmi", VInt 0)];
        EvLogError "Prediction error: This StandardScaler instance is not fitted yet."],
       inl (HTTPException 500
              "Prediction failed: This StandardScaler instance is not fitted yet.")).
Proof.
  split; [reflexivity|]. intros round.
  exact (predict_scaler_raises round (loaded model_all scaler_raising) model_all
           scaler_raising ["age"; "bmi"; "gender"]
           {| features := {[ "age" := VInt 48 ]} |} _ eq_refl eq_refl eq_refl eq_refl).
Defined.

(** When [final_df] has returned and the classifier raises, the request ends
    as [HTTPException(500)] carrying the classifier's message; the classifier
    was called once, on the values of the frame. *)
Theorem predict_classifier_raises (round : float → Z → float) (g : globals)
    (md : Model) (sc : Scaler) (fc : list string) (req : HealthFeatures)
    (t : list event) (df : frame) (e : exc) :
  model g = Some md → scaler g = Some sc → feature_columns g = Some fc →
  final_df md sc fc req = (t, inr df) →
  predict_proba md (values df) = inl e →
  predict round g req
  = (t ++ [EvPredictProba (values df); EvLogError ("Prediction error: " +:+ exc_str e)],
     inl (HTTPException 500 ("Prediction failed: " +:+ exc_str e))).
Proof.
  intros Hm Hs Hf Hrun Hp. rewrite (predict_loaded round g md sc fc req Hm Hs Hf).
  unfold predict, try_except. simpl. rewrite Hrun. simpl. rewrite Hp. simpl.
  by rewrite <- app_assoc.
Qed.

Lemma predict_classifier_raises_witness :
  final_df model_raising scaler_age_bmi ["age"; "bmi"; "gender"]
    {| features := {[ "age" := VInt 48 ]} |}
  = ([EvTransform [("age", VInt 48); ("bmi", VInt 0)]],
     inr [("gender", VInt 0); ("bmi", VFloat (-5)); ("age", VFloat 1); ("smoker", VInt 0)]) ∧
  ∀ round,
    predict round (loaded model_raising scaler_age_bmi)
      {| features := {[ "age" := VInt 48 ]} |}
    = ([EvTransform [("age", VInt 48); ("bmi", VInt 0)];
        EvPredictProba [VFloat 0; VFloat (-5); VFloat 1; VFloat 0];
        EvLogError "Prediction error: X has 4 features, but LogisticRegression is expecting 21 features as input."],
       inl (HTTPException 500
              "Prediction failed: X has 4 features, but LogisticRegression is expecting 21 features as input.")).
Proof.
  split; [reflexivity|]. intros round.
  exact (predict_classifier_raises round (loaded model_raising scaler_age_bmi)
           model_raising scaler_age_bmi ["age"; "bmi"; "gender"]
           {| features := {[ "age" := VInt 48 ]} |} _ _ _
           eq_refl eq_refl eq_refl eq_refl eq_refl).
Defined.

(** When the classifier returns fewer than two class probabilities (a model
    fitted on one class), taking the positive class raises, and the request
    ends as [HTTPException(500)] with numpy's out-of-bounds message. *)
Theorem predict_no_positive_class (round : float → Z → float) (g : globals)
    (md : Model) (sc : Scaler) (fc : list string) (req : HealthFeatures)
    (t : list event) (df : frame) (proba : list float) :
  model g = Some md → scaler g = Some sc → feature_columns g = Some fc →
  final_df md sc fc req = (t, inr df) →
  predict_proba md (values df) = inr proba →
  length proba ≤ 1 →
  predict round g req
  = (t ++ [EvPredictProba (values df);
           EvLogError ("Prediction error: index 1 is out of bounds for axis 0 with size "
                       +:+ pretty (length proba))],
     inl (HTTPException 500
            ("Prediction failed: index 1 is out of bounds for axis 0 with size "
             +:+ pretty (length proba)))).
Proof.
  intros Hm Hs Hf Hrun Hp Hlen. rewrite (predict_loaded round g md sc fc req Hm Hs Hf).
  unfold predict, try_except. simpl. rewrite Hrun. simpl. rewrite Hp. simpl.
  unfold getitem. rewrite (proj2 (lookup_ge_None proba 1)) by lia. simpl.
  by rewrite <- app_assoc.
Qed.

Lemma predict_no_positive_class_witness :
  (predict_proba model_one_class [VFloat 0; VFloat (-5); VFloat 1; VFloat 0] = inr [1%float] ∧
   length [1%float] ≤ 1) ∧
  ∀ round,
    predict round (loaded model_one_class scaler_age_bmi)
      {| features := {[ "age" := VInt 48 ]} |}
    = ([EvTransform [("age", VInt 48); ("bmi", VInt 0)];
        EvPredictProba [VFloat 0; VFloat (-5); VFloat 1; VFloat 0];
        EvLogError "Prediction error: index 1 is out of bounds for axis 0 with size 1"],
       inl (HTTPException 500
              "Prediction failed: index 1 is out of bounds for axis 0 with size 1")).
Proof.
  split; [split; [reflexivity|simpl; lia]|]. intros round.
  refine (predict_no_positive_class round (loaded model_one_class scaler_age_bmi)
            model_one_class scaler_age_bmi ["age"; "bmi"; "gender"]
            {| features := {[ "age" := VInt 48 ]} |} _ _ [1%float]
            eq_refl eq_refl eq_refl eq_refl eq_refl _).
  simpl. lia.
Defined.

(** A prediction is returned exactly when [final_df] returned a frame and the
    classifier returned at least two probabilities for it. The response is
    then built from the second one, [p]: the probability, the confidence and
    the vitality score are rounded, and the risk level and the recommendation
    are those of the unrounded [p]. The trace holds the one call to the
    scaler and the one call to the classifier, and no error record. *)
Theorem predict_response (round : float → Z → float) (g : globals)
    (md : Model) (sc : Scaler) (fc : list string) (req : HealthFeatures)
    (t : list event) (resp : PredictionResponse) :
  model g = Some md → scaler g = Some sc → feature_columns g = Some fc →
  predict round g req = (t, inr resp) ↔
  ∃ df proba p,
    final_df md sc fc req
      = ([EvTransform (aligned (features req) (scaler_features sc fc))], inr df) ∧
    predict_proba md (values df) = inr proba ∧
    proba !! 1 = Some p ∧
    t = [EvTransform (aligned (features req) (scaler_features sc fc));
         EvPredictProba (values df)] ∧
    resp = {| risk_probability := round p 4%Z;
              risk_level := risk_level_of (get_risk_metadata p);
              confidence := round (confidence_of (get_risk_metadata p)) 4%Z;
              vitality_score := round (vitality_score_of (get_risk_metadata p)) 2%Z;
              recommendation := recommendation_of (get_risk_metadata p) |}.
Proof.
  intros Hm Hs Hf. rewrite (predict_loaded round g md sc fc req Hm Hs Hf).
  destruct (final_df_trace md sc fc req) as [r Hrun].
  unfold predict, try_except. simpl. rewrite Hrun. simpl.
  destruct r as [e|df]; simpl.
  { split; [done|]. intros (df & proba & p & [=] & _). }
  destruct (predict_proba md (values df)) as [e|proba] eqn:Hp; simpl.
  { split; [done|]. intros (df' & proba & p & [= <-] & Hp' & _). congruence. }
  unfold getitem. destruct (proba !! 1) as [p|] eqn:Hp1; simpl.
  - destruct (get_risk_metadata p) as [[[lvl conf] vit] rec] eqn:Hmeta. simpl. split.
    + intros [= <- <-]. exists df, proba, p. by rewrite Hmeta.
    + intros (df' & proba' & p' & [= <-] & Hp' & Hp1' & -> & ->).
      rewrite Hp in Hp'. simplify_eq. by rewrite Hmeta.
  - split; [done|].
    intros (df' & proba' & p' & [= <-] & Hp' & Hp1' & _).
    rewrite Hp in Hp'. simplify_eq.
Qed.

Lemma predict_response_witness :
  (model (loaded model_all scaler_age_bmi) = Some model_all ∧
   scaler (loaded model_all scaler_age_bmi) = Some scaler_age_bmi ∧
   feature_columns (loaded model_all scaler_age_bmi) = Some ["age"; "bmi"; "gender"]) ∧
  ∀ round,
    predict round (loaded model_all scaler_age_bmi) {| features := {[ "age" := VInt 48 ]} |}
    = ([EvTransform [("age", VInt 48); ("bmi", VInt 0)];
        EvPredictProba [VFloat 0; VFloat (-5); VFloat 1; VFloat 0]],
       inr {| risk_probability := round 0.62%float 4%Z;
              risk_level := "Moderate";
              confidence := round (abs (0.62 - 0.5) * 2)%float 4%Z;
              vitality_score := round ((1 - 0.62) * 100)%float 2%Z;
              recommendation := "Some indicators suggest potential risks. Consider consulting a professional and reviewing your diet/exercise habits." |}).
Proof.
  split; [by split_and!|]. intros round.
  apply (predict_response round (loaded model_all scaler_age_bmi) model_all
           scaler_age_bmi ["age"; "bmi"; "gender"]
           {| features := {[ "age" := VInt 48 ]} |} _ _ eq_refl eq_refl eq_refl).
  exists [("gender", VInt 0); ("bmi", VFloat (-5)); ("age", VFloat 1); ("smoker", VInt 0)],
    [0.38; 0.62]%float, 0.62%float.
  split_and!; reflexivity.
Defined.

(** When the scaler's schema has a name and the request holds numbers only
    under the names of the model's schema, the classifier is called, and
    the array it receives is a [float64] array: under a name the scaler's
    schema lacks it holds the float nearest to the request's number, and
    [0.0] where the request had none. An integer of the request does not
    reach the classifier as an integer. *)
Theorem predict_classifier_row_float64 (round : float → Z → float) (g : globals)
    (md : Model) (sc : Scaler) (fc : list string) (req : HealthFeatures)
    (scaled : list float) :
  model g = Some md → scaler g = Some sc → feature_columns g = Some fc →
  scaler_features sc fc ≠ [] →
  (∀ k v, k ∈ model_features md fc → features req !! k = Some v → number64 v) →
  transform sc (aligned (features req) (scaler_features sc fc)) = inr scaled →
  length (scaler_features sc fc) ≤ length scaled →
  ∃ X t,
    (predict round g req).1
      = EvTransform (aligned (features req) (scaler_features sc fc))
        :: EvPredictProba X :: t ∧
    (∀ v, v ∈ X → ∃ x, v = VFloat x) ∧
    (∀ j k, k ∉ scaler_features sc fc → model_features md fc !! j = Some k →
       X !! j = Some (astype float64 (default (VInt 0) (features req !! k)))).
Proof.
  intros Hm Hs Hf Hne Hnum Htr Hlen.
  rewrite (predict_loaded round g md sc fc req Hm Hs Hf).
  destruct (final_df_returns md sc fc req scaled Htr Hlen)
    as (df & extra & Hrun & Hcols & Hextra & Hcells).
  assert (∀ c v, (c, v) ∈ df → number64 v) as Hcell_num.
  { intros c v Hin. apply list_elem_of_lookup in Hin as [j Hj].
    destruct (Hcells j c v Hj) as [[_ Hraw]|(k & x & _ & _ & ->)]; [|done].
    rewrite lookup_aligned in Hraw.
    destruct (model_features md fc !! j) as [c'|] eqn:Hc; simplify_eq/=.
    destruct (features req !! c) as [v|] eqn:Hv; simpl.
    - apply (Hnum c v); [by eapply list_elem_of_lookup_2|done].
    - simpl. generalize (2 ^ 63)%Z (2 ^ 64)%Z (Z.pow_pos_nonneg 2 63) (Z.pow_pos_nonneg 2 64).
      lia. }
  assert (∃ c x, (c, VFloat x) ∈ df) as Hfloat.
  { destruct (scaler_features sc fc) as [|c0 rest] eqn:Hsf; [done|].
    assert (c0 ∈ columns df) as Hc0.
    { rewrite Hcols, elem_of_app.
      destruct (decide (c0 ∈ model_features md fc)) as [|Hno]; [by left|].
      right. apply Hextra. split; [by left|done]. }
    unfold columns in Hc0. apply list_elem_of_fmap in Hc0 as ([c v] & -> & Hin).
    exists c. apply list_elem_of_lookup in Hin as Hj. destruct Hj as [j Hj].
    destruct (Hcells j c v Hj) as [[Hno _]|(k & x & _ & _ & ->)].
    - destruct Hno. by left.
    - by exists x. }
  pose proof (values_numbers df Hfloat Hcell_num) as Hvalues.
  exists (values df).
  assert (∃ t, (predict round (Build_globals (Some md) (Some sc) (Some fc)) req).1
               = EvTransform (aligned (features req) (scaler_features sc fc))
                 :: EvPredictProba (values df) :: t) as [t Ht].
  { unfold predict, try_except. simpl. rewrite Hrun. simpl.
    destruct (predict_proba md (values df)) as [e|proba]; simpl; [by eexists|].
    destruct (getitem proba 1 ≫= _) as [t [e|resp]]; simpl; by eexists. }
  exists t. split; [done|]. split.
  - intros v Hv. rewrite Hvalues in Hv.
    apply list_elem_of_fmap in Hv as (v' & -> & Hv').
    apply list_elem_of_fmap in Hv' as ([c v''] & -> & Hin). simpl.
    apply Hcell_num in Hin. destruct v''; simpl in *; by eauto.
  - intros j k Hks Hkm. rewrite Hvalues, !list_lookup_fmap.
    assert (columns df !! j = Some k) as Hlabel.
    { rewrite Hcols. by apply lookup_app_l_Some. }
    unfold columns in Hlabel. rewrite list_lookup_fmap in Hlabel.
    destruct (df !! j) as [[c v]|] eqn:Hdf; simplify_eq/=.
    destruct (Hcells j k v Hdf) as [[_ Hraw]|(i & y & [Hi _] & _)].
    + rewrite lookup_aligned, Hkm in Hraw. by simplify_eq/=.
    + destruct Hks. by eapply list_elem_of_lookup_2.
Qed.

Lemma predict_classifier_row_float64_witness :
  (model (loaded model_all scaler_age_bmi) = Some model_all ∧
   scaler (loaded model_all scaler_age_bmi) = Some scaler_age_bmi ∧
   ["age"; "bmi"] ≠ [] ∧
   transform scaler_age_bmi [("age", VInt 48); ("bmi", VInt 0)] = inr [1; -5]%float ∧
   length ["age"; "bmi"] ≤ length [1; -5]%float) ∧
  ∀ round,
    ∃ X t,
      (predict round (loaded model_all scaler_age_bmi)
         {| features := {[ "age" := VInt 48; "smoker" := VInt 9007199254740993 ]} |}).1
        = EvTransform [("age", VInt 48); ("bmi", VInt 0)] :: EvPredictProba X :: t ∧
      (∀ v, v ∈ X → ∃ x, v = VFloat x) ∧
      X !! 0 = Some (VFloat 0) ∧ X !! 3 = Some (VFloat 9007199254740992).
Proof.
  split; [split_and!; [reflexivity|reflexivity|discriminate|reflexivity|simpl; lia]|].
  intros round.
  destruct (predict_classifier_row_float64 round (loaded model_all scaler_age_bmi)
              model_all scaler_age_bmi ["age"; "bmi"; "gender"]
              {| features := {[ "age" := VInt 48; "smoker" := VInt 9007199254740993 ]} |}
              [1; -5]%float eq_refl eq_refl eq_refl)
    as (X & t & Ht & Hfloats & Hcells).
  - discriminate.
  - intros k v Hk. simpl in Hk.
    repeat (apply elem_of_cons in Hk as [->|Hk];
            [intros Hv; vm_compute in Hv; simplify_eq; vm_compute;
             try (split; [discriminate|reflexivity])|]).
    by apply elem_of_nil in Hk.
  - reflexivity.
  - simpl. lia.
  - exists X, t. split_and!; [exact Ht|exact Hfloats|..].
    + apply (Hcells 0 "gender"); [|reflexivity].
      intros Hin. repeat (apply elem_of_cons in Hin as [?|Hin]; [done|]).
      by apply elem_of_nil in Hin.
    + apply (Hcells 3 "smoker"); [|reflexivity].
      intros Hin. repeat (apply elem_of_cons in Hin as [?|Hin]; [done|]).
      by apply elem_of_nil in Hin.
Defined.

(** * Startup *)

(** The trace of a startup that read the three files. *)
Lemma lifespan_unfold (load : string → exc + pyobject) (g : module_globals) :
  lifespan load g =
    let start := [SuLogInfo "Starting up LifeShield Backend...";
                  SuLogInfo "Loading model artifacts..."] in
    let failed (g' : module_globals) (t : list startup_event) (e : exc) :=
      (g', start ++ t ++ [SuLogError ("Failed to load artifacts: " +:+ exc_str e)],
       inl (Exc "RuntimeError"
              ("Startup failed: Could not load required artifacts. " +:+ exc_str e))) in
    match load "best_model.pkl" with
    | inl e => failed g [SuLoad "best_model.pkl"] e
    | inr m =>
      let g1 := {| g_model := Some m; g_scaler := g_scaler g;
                   g_feature_columns := g_feature_columns g |} in
      match load "scaler.pkl" with
      | inl e => failed g1 [SuLoad "best_model.pkl"; SuLoad "scaler.pkl"] e
      | inr s =>
        let g2 := {| g_model := Some m; g_scaler := Some s;
                     g_feature_columns := g_feature_columns g |} in
        let loads := [SuLoad "best_model.pkl"; SuLoad "scaler.pkl";
                      SuLoad "feature_columns.pkl"] in
        match load "feature_columns.pkl" with
        | inl e => failed g2 loads e
        | inr fc =>
          let g3 := {| g_model := Some m; g_scaler := Some s;
                       g_feature_columns := Some fc |} in
          if negb (hasattr_predict_proba m)
          then failed g3 loads
                 (Exc "ValueError" "Loaded model does not support predict_proba")
          else if negb (isinstance_list fc)
          then failed g3 loads
                 (Exc "ValueError" "feature_columns.pkl must contain a list of column names")
          else (g3,
                start ++ loads ++
                [SuLogInfo ("Loaded " +:+ pretty (len fc) +:+ " feature columns.");
                 SuLogInfo "All artifacts loaded and validated successfully."],
                inr tt)
        end
      end
    end.
Proof.
  unfold lifespan, su_try_except, mbind, Startup_bind, su_emit, su_load, su_assign,
    su_raise, mret, Startup_ret. simpl.
  destruct (load "best_model.pkl") as [e|m]; simpl; [done|].
  destruct (load "scaler.pkl") as [e|s]; simpl; [done|].
  destruct (load "feature_columns.pkl") as [e|fc]; simpl; [done|].
  destruct (hasattr_predict_proba m); simpl; [|done].
  destruct (isinstance_list fc); simpl; done.
Qed.

(** What a startup that returned has done. *)
Lemma lifespan_returns_inv (load : string → exc + pyobject)
    (g g' : module_globals) (t : list startup_event) :
  lifespan load g = (g', t, inr tt) →
  ∃ m s fc,
    load "best_model.pkl" = inr m ∧ load "scaler.pkl" = inr s ∧
    load "feature_columns.pkl" = inr fc ∧
    obj_predict_proba m ≠ None ∧ obj_items fc ≠ None ∧
    g' = {| g_model := Some m; g_scaler := Some s; g_feature_columns := Some fc |} ∧
    t = [SuLogInfo "Starting up LifeShield Backend...";
         SuLogInfo "Loading model artifacts...";
         SuLoad "best_model.pkl"; SuLoad "scaler.pkl"; SuLoad "feature_columns.pkl";
         SuLogInfo ("Loaded " +:+ pretty (len fc) +:+ " feature columns.");
         SuLogInfo "All artifacts loaded and validated successfully."].
Proof.
  rewrite lifespan_unfold. simpl. unfold hasattr_predict_proba, isinstance_list.
  destruct (load "best_model.pkl") as [e|m]; [done|].
  destruct (load "scaler.pkl") as [e|s]; [done|].
  destruct (load "feature_columns.pkl") as [e|fc]; [done|].
  destruct (decide (obj_predict_proba m ≠ None)) as [Hm|Hm].
  - rewrite (bool_decide_eq_true_2 _ Hm). simpl.
    destruct (decide (obj_items fc ≠ None)) as [Hfc|Hfc].
    + rewrite (bool_decide_eq_true_2 _ Hfc). simpl.
      intros [= <- <-]. by exists m, s, fc.
    + by rewrite (bool_decide_eq_false_2 _ Hfc).
  - by rewrite (bool_decide_eq_false_2 _ Hm).
Qed.

(** Startup returns exactly when the three files unpickle, the model has
    [predict_proba] and the feature columns are a list. The three globals
    then hold the three objects, whatever they held before, and the log ends
    with the number of feature columns and the success record. *)
Theorem lifespan_returns_iff (load : string → exc + pyobject)
    (g g' : module_globals) (t : list startup_event) :
  lifespan load g = (g', t, inr tt) ↔
  ∃ m s fc,
    load "best_model.pkl" = inr m ∧ load "scaler.pkl" = inr s ∧
    load "feature_columns.pkl" = inr fc ∧
    obj_predict_proba m ≠ None ∧ obj_items fc ≠ None ∧
    g' = {| g_model := Some m; g_scaler := Some s; g_feature_columns := Some fc |} ∧
    t = [SuLogInfo "Starting up LifeShield Backend...";
         SuLogInfo "Loading model artifacts...";
         SuLoad "best_model.pkl"; SuLoad "scaler.pkl"; SuLoad "feature_columns.pkl";
         SuLogInfo ("Loaded " +:+ pretty (len fc) +:+ " feature columns.");
         SuLogInfo "All artifacts loaded and validated successfully."].
Proof.
  split; [apply lifespan_returns_inv|].
  intros (m & s & fc & Hm & Hs & Hfc & Hattr & Hlist & -> & ->).
  rewrite lifespan_unfold. simpl. rewrite Hm, Hs, Hfc.
  unfold hasattr_predict_proba, isinstance_list.
  by rewrite (bool_decide_eq_true_2 _ Hattr), (bool_decide_eq_true_2 _ Hlist).
Qed.

Lemma lifespan_returns_iff_witness :
  lifespan files_ok globals_unset
  = ({| g_model := Some obj_classifier; g_scaler := Some obj_scaler;
        g_feature_columns := Some obj_columns |},
     [SuLogInfo "Starting up LifeShield Backend...";
      SuLogInfo "Loading model artifacts...";
      SuLoad "best_model.pkl"; SuLoad "scaler.pkl"; SuLoad "feature_columns.pkl";
      SuLogInfo "Loaded 3 feature columns.";
      SuLogInfo "All artifacts loaded and validated successfully."],
     inr tt).
Proof.
  apply lifespan_returns_iff. exists obj_classifier, obj_scaler, obj_columns.
  split_and!; try reflexivity; discriminate.
Defined.

(** When a file fails to unpickle, startup raises [RuntimeError] carrying the
    loader's message, after logging it. The files after it are not read, the
    globals assigned before it keep the objects just loaded, and the others
    are left as they were. *)
Theorem lifespan_load_fails (load : string → exc + pyobject) (g : module_globals) :
  (∀ e, load "best_model.pkl" = inl e →
     lifespan load g
     = (g,
        [SuLogInfo "Starting up LifeShield Backend...";
         SuLogInfo "Loading model artifacts..."; SuLoad "best_model.pkl";
         SuLogError ("Failed to load artifacts: " +:+ exc_str e)],
        inl (Exc "RuntimeError"
               ("Startup failed: Could not load required artifacts. " +:+ exc_str e)))) ∧
  (∀ m e, load "best_model.pkl" = inr m → load "scaler.pkl" = inl e →
     lifespan load g
     = ({| g_model := Some m; g_scaler := g_scaler g;
           g_feature_columns := g_feature_columns g |},
        [SuLogInfo "Starting up LifeShield Backend...";
         SuLogInfo "Loading model artifacts..."; SuLoad "best_model.pkl";
         SuLoad "scaler.pkl";
         SuLogError ("Failed to load artifacts: " +:+ exc_str e)],
        inl (Exc "RuntimeError"
               ("Startup failed: Could not load required artifacts. " +:+ exc_str e)))) ∧
  (∀ m s e, load "best_model.pkl" = inr m → load "scaler.pkl" = inr s →
     load "feature_columns.pkl" = inl e →
     lifespan load g
     = ({| g_model := Some m; g_scaler := Some s;
           g_feature_columns := g_feature_columns g |},
        [SuLogInfo "Starting up LifeShield Backend...";
         SuLogInfo "Loading model artifacts..."; SuLoad "best_model.pkl";
         SuLoad "scaler.pkl"; SuLoad "feature_columns.pkl";
         SuLogError ("Failed to load artifacts: " +:+ exc_str e)],
        inl (Exc "RuntimeError"
               ("Startup failed: Could not load required artifacts. " +:+ exc_str e)))).
Proof.
  split_and!.
  - intros e He. rewrite lifespan_unfold. simpl. by rewrite He.
  - intros m e Hm He. rewrite lifespan_unfold. simpl. by rewrite Hm, He.
  - intros m s e Hm Hs He. rewrite lifespan_unfold. simpl. by rewrite Hm, Hs, He.
Qed.

Lemma lifespan_load_fails_witness :
  (files_no_scaler "best_model.pkl" = inr obj_classifier ∧
   files_no_scaler "scaler.pkl"
     = inl (Exc "FileNotFoundError" "[Errno 2] No such file or directory: 'scaler.pkl'")) ∧
  lifespan files_no_scaler globals_unset
  = ({| g_model := Some obj_classifier; g_scaler := None; g_feature_columns := None |},
     [SuLogInfo "Starting up LifeShield Backend...";
      SuLogInfo "Loading model artifacts..."; SuLoad "best_model.pkl";
      SuLoad "scaler.pkl";
      SuLogError "Failed to load artifacts: [Errno 2] No such file or directory: 'scaler.pkl'"],
     inl (Exc "RuntimeError"
            "Startup failed: Could not load required artifacts. [Errno 2] No such file or directory: 'scaler.pkl'")).
Proof.
  split; [split; reflexivity|].
  exact (proj1 (proj2 (lifespan_load_fails files_no_scaler globals_unset))
           obj_classifier _ eq_refl eq_refl).
Defined.

(** When the three files unpickle and a check fails, startup raises
    [RuntimeError], yet the three globals already hold the three objects: the
    assignments come before the checks. The model is checked first. *)
Theorem lifespan_validation_fails (load : string → exc + pyobject) (g : module_globals)
    (m s fc : pyobject) :
  load "best_model.pkl" = inr m → load "scaler.pkl" = inr s →
  load "feature_columns.pkl" = inr fc →
  obj_predict_proba m = None ∨ obj_items fc = None →
  lifespan load g
  = ({| g_model := Some m; g_scaler := Some s; g_feature_columns := Some fc |},
     [SuLogInfo "Starting up LifeShield Backend...";
      SuLogInfo "Loading model artifacts...";
      SuLoad "best_model.pkl"; SuLoad "scaler.pkl"; SuLoad "feature_columns.pkl";
      SuLogError ("Failed to load artifacts: " +:+
                  (if hasattr_predict_proba m
                   then "feature_columns.pkl must contain a list of column names"
                   else "Loaded model does not support predict_proba"))],
     inl (Exc "RuntimeError"
            ("Startup failed: Could not load required artifacts. " +:+
             (if hasattr_predict_proba m
              then "feature_columns.pkl must contain a list of column names"
              else "Loaded model does not support predict_proba")))).
Proof.
  intros Hm Hs Hfc Hbad. rewrite lifespan_unfold. simpl. rewrite Hm, Hs, Hfc.
  destruct (hasattr_predict_proba m) eqn:Hattr; simpl; [|done].
  destruct Hbad as [Hnone|Hnone].
  - unfold hasattr_predict_proba in Hattr. apply bool_decide_eq_true in Hattr. done.
  - unfold isinstance_list. rewrite bool_decide_eq_false_2 by (by intros []). done.
Qed.

Lemma lifespan_validation_fails_witness :
  ((λ path, inr obj_columns) "best_model.pkl" = (inr obj_columns : exc + pyobject) ∧
   obj_predict_proba obj_columns = None) ∧
  lifespan (λ _, inr obj_columns) globals_unset
  = ({| g_model := Some obj_columns; g_scaler := Some obj_columns;
        g_feature_columns := Some obj_columns |},
     [SuLogInfo "Starting up LifeShield Backend...";
      SuLogInfo "Loading model artifacts...";
      SuLoad "best_model.pkl"; SuLoad "scaler.pkl"; SuLoad "feature_columns.pkl";
      SuLogError "Failed to load artifacts: Loaded model does not support predict_proba"],
     inl (Exc "RuntimeError"
            "Startup failed: Could not load required artifacts. Loaded model does not support predict_proba")).
Proof.
  split; [split; reflexivity|].
  exact (lifespan_validation_fails (λ _, inr obj_columns) globals_unset
           obj_columns obj_columns obj_columns eq_refl eq_refl eq_refl
           (or_introl eq_refl)).
Defined.

(** Startup never looks at the scaler: two directories that differ only in
    the object [scaler.pkl] unpickles to give the same outcome and the same
    log, and globals that differ only in the scaler. *)
Theorem lifespan_ignores_scaler (load load' : string → exc + pyobject)
    (g : module_globals) (s s' : pyobject) :
  (∀ path, path ≠ "scaler.pkl" → load' path = load path) →
  load "scaler.pkl" = inr s → load' "scaler.pkl" = inr s' →
  (lifespan load' g).2 = (lifespan load g).2 ∧
  (lifespan load' g).1.2 = (lifespan load g).1.2 ∧
  g_model (lifespan load' g).1.1 = g_model (lifespan load g).1.1 ∧
  g_feature_columns (lifespan load' g).1.1 = g_feature_columns (lifespan load g).1.1.
Proof.
  intros Hsame Hs Hs'. rewrite !lifespan_unfold. simpl.
  rewrite (Hsame "best_model.pkl"), (Hsame "feature_columns.pkl"), Hs, Hs' by done.
  destruct (load "best_model.pkl") as [e|m]; [done|].
  destruct (load "feature_columns.pkl") as [e|fc]; [done|].
  destruct (hasattr_predict_proba m); simpl; [|done].
  by destruct (isinstance_list fc).
Qed.

Lemma lifespan_ignores_scaler_witness :
  (files_ok "scaler.pkl" = inr obj_scaler ∧
   files_scaler_is_list "scaler.pkl" = inr obj_columns) ∧
  (lifespan files_scaler_is_list globals_unset).2 = inr tt ∧
  (lifespan files_scaler_is_list globals_unset).1.2 = (lifespan files_ok globals_unset).1.2.
Proof.
  split; [split; reflexivity|].
  destruct (lifespan_ignores_scaler files_ok files_scaler_is_list globals_unset
              obj_scaler obj_columns) as (Hout & Hlog & _); [|reflexivity..|].
  - intros path Hpath. unfold files_scaler_is_list. by rewrite decide_False.
  - split; [|exact Hlog]. rewrite Hout. reflexivity.
Defined.

(** After a startup that returned, if the object loaded as the scaler has
    [transform] and the feature columns are strings, the handlers see three
    loaded artifacts: the health check reports [artifacts_loaded = True], and
    no request is answered 503: every request reaches the scaler. *)
Theorem lifespan_then_serving (load : string → exc + pyobject)
    (g g' : module_globals) (t : list startup_event) (sc : Scaler)
    (names : list string) :
  lifespan load g = (g', t, inr tt) →
  g_scaler g' ≫= as_Scaler = Some sc →
  g_feature_columns g' ≫= as_names = Some names →
  ∃ md tg,
    typed_globals g' = Some tg ∧
    tg = {| model := Some md; scaler := Some sc; feature_columns := Some names |} ∧
    health_check tg !! "artifacts_loaded" = Some (VBool true) ∧
    ∀ round req, ∃ t' r,
      predict round tg req
      = (EvTransform (aligned (features req) (scaler_features sc names)) :: t', r).
Proof.
  intros Hrun Hsc Hnames.
  apply lifespan_returns_inv in Hrun as (m & s & fc & _ & _ & _ & Hm & _ & -> & _).
  simpl in Hsc, Hnames.
  destruct (obj_predict_proba m) as [p|] eqn:Hp; [|done].
  exists {| model_feature_names_in_ := obj_feature_names_in_ m; predict_proba := p |}.
  eexists. split_and!; [|reflexivity| |].
  - unfold typed_globals, view. simpl. unfold as_Model. rewrite Hp, Hsc, Hnames. done.
  - unfold health_check. simpl. rewrite lookup_insert_ne by done.
    by rewrite lookup_singleton_eq.
  - intros round req.
    destruct (final_df_trace
                {| model_feature_names_in_ := obj_feature_names_in_ m; predict_proba := p |}
                sc names req) as [r Hfinal].
    unfold predict, try_except. simpl. rewrite Hfinal. simpl.
    destruct r as [e|df]; simpl; [by eexists _, _|].
    destruct (p (values df)) as [e|proba]; simpl; [by eexists _, _|].
    destruct (getitem proba 1 ≫= _) as [t' [e|resp]]; simpl; by eexists _, _.
Qed.

Lemma lifespan_then_serving_witness :
  ((lifespan files_ok globals_unset).2 = inr tt ∧
   as_Scaler obj_scaler = Some scaler_age_bmi ∧
   as_names obj_columns = Some ["age"; "bmi"; "gender"]) ∧
  ∃ md tg,
    typed_globals (lifespan files_ok globals_unset).1.1 = Some tg ∧
    tg = {| model := Some md; scaler := Some scaler_age_bmi;
            feature_columns := Some ["age"; "bmi"; "gender"] |} ∧
    health_check tg !! "artifacts_loaded" = Some (VBool true) ∧
    ∀ round req, ∃ t' r,
      predict round tg req
      = (EvTransform (aligned (features req)
                        (scaler_features scaler_age_bmi ["age"; "bmi"; "gender"])) :: t', r).
Proof.
  split; [split_and!; reflexivity|].
  exact (lifespan_then_serving files_ok globals_unset
           (lifespan files_ok globals_unset).1.1 (lifespan files_ok globals_unset).1.2
           scaler_age_bmi ["age"; "bmi"; "gender"] eq_refl eq_refl eq_refl).
Defined.

(** * Further properties of [get_risk_metadata] *)

(** ** NaN and monotonicity *)

(** [x <= y] and [y < z] give [x < z]. *)
Lemma SFleb_ltb_trans (x y z : spec_float) :
  SFleb x y = true → SFltb y z = true → SFltb x z = true.
Proof.
  unfold SFleb, SFltb.
  destruct x as [sx|sx| |sx mx ex], y as [sy|sy| |sy my ey], z as [sz|sz| |sz mz ez];
    simpl; try done;
    try (destruct sx; simpl; try done); try (destruct sy; simpl; try done);
    try (destruct sz; simpl; try done);
    change (PosDef.Pos.compare_cont Eq) with Pos.compare;
    destruct (Z.compare_spec ex ey), (Z.compare_spec ey ez), (Z.compare_spec ex ez);
    simpl; try done; try lia;
    destruct (Pos.compare_spec mx my), (Pos.compare_spec my mz), (Pos.compare_spec mx mz);
    simpl; try done; try lia.
Qed.

Lemma leb_ltb_trans (x y z : float) :
  (x <=? y)%float = true → (y <? z)%float = true → (x <? z)%float = true.
Proof. rewrite leb_spec, !ltb_spec. apply SFleb_ltb_trans. Qed.

(** Only NaN differs from itself. *)
Lemma SFeqb_refl_false (x : spec_float) : SFeqb x x = false → x = S754_nan.
Proof.
  unfold SFeqb. destruct x as [s|s| |s m e]; simpl; try done.
  - by destruct s.
  - change (PosDef.Pos.compare_cont Eq) with Pos.compare.
    rewrite Z.compare_refl, Pos.compare_refl. by destruct s.
Qed.

Lemma is_nan_eq (p : float) : is_nan p = true → p = nan.
Proof.
  unfold is_nan. intros Hp. apply negb_true_iff in Hp. rewrite FloatAxioms.eqb_spec in Hp.
  apply SFeqb_refl_false in Hp. apply Prim2SF_inj. rewrite Hp. reflexivity.
Qed.

(** A NaN probability (a classifier that divides zero by zero) is put in
    the "High" band, since both comparisons are false on it, and both scores
    are NaN. *)
Theorem risk_metadata_nan (p : float) :
  is_nan p = true →
  risk_level_of (get_risk_metadata p) = "High" ∧
  is_nan (confidence_of (get_risk_metadata p)) = true ∧
  is_nan (vitality_score_of (get_risk_metadata p)) = true.
Proof. intros Hp. apply is_nan_eq in Hp as ->. split_and!; reflexivity. Qed.

Lemma risk_metadata_nan_witness :
  is_nan (0 / 0)%float = true ∧
  risk_level_of (get_risk_metadata (0 / 0)%float) = "High" ∧
  is_nan (confidence_of (get_risk_metadata (0 / 0)%float)) = true ∧
  is_nan (vitality_score_of (get_risk_metadata (0 / 0)%float)) = true.
Proof. split; [reflexivity|]. exact (risk_metadata_nan (0 / 0)%float eq_refl). Defined.

(** The risk level never goes down when the probability goes up: for
    [p <= q], if [q] is "Low" so is [p], and if [p] is "High" so is [q]. *)
Theorem risk_level_monotone (p q : float) :
  (p <=? q)%float = true →
  (risk_level_of (get_risk_metadata q) = "Low" →
   risk_level_of (get_risk_metadata p) = "Low") ∧
  (risk_level_of (get_risk_metadata p) = "High" →
   risk_level_of (get_risk_metadata q) = "High").
Proof.
  intros Hpq. unfold get_risk_metadata, risk_level_of. split.
  - destruct (q <? 0.3)%float eqn:Hq.
    + by rewrite (leb_ltb_trans p q _ Hpq Hq).
    + destruct (q <? 0.7)%float; simpl; discriminate.
  - destruct (p <? 0.3)%float eqn:Hp3; [simpl; discriminate|].
    destruct (p <? 0.7)%float eqn:Hp7; [simpl; discriminate|]. intros _.
    destruct (q <? 0.3)%float eqn:Hq3.
    { rewrite (leb_ltb_trans p q _ Hpq Hq3) in Hp3. discriminate. }
    destruct (q <? 0.7)%float eqn:Hq7; [|reflexivity].
    rewrite (leb_ltb_trans p q _ Hpq Hq7) in Hp7. discriminate.
Qed.

Lemma risk_level_monotone_witness :
  ((0.1 <=? 0.2)%float = true ∧ risk_level_of (get_risk_metadata 0.2) = "Low") ∧
  risk_level_of (get_risk_metadata 0.1) = "Low".
Proof.
  split; [split; reflexivity|].
  exact (proj1 (risk_level_monotone 0.1 0.2 eq_refl) eq_refl).
Defined.

(** ** The vitality score *)

Section Binary64Scaled.
Local Open Scope Z_scope.

Lemma m100_val : Z.pos m100 = 25 * 2 ^ 48.
Proof. vm_compute. reflexivity. Qed.

(** [pow2_div_le] with a factor [b] in front of the power. *)
Lemma scaled_div_le (m a n b : Z) :
  0 <= n -> 0 <= a -> 0 <= b -> m <= b * 2 ^ (a + n) ->
  m / 2 ^ n <= b * 2 ^ a /\ (m mod 2 ^ n <> 0 -> m / 2 ^ n + 1 <= b * 2 ^ a).
Proof.
  intros Hn Ha Hb Hm. rewrite Z.pow_add_r, Z.mul_assoc in Hm by lia.
  assert (0 < 2 ^ n) as Hpow by (apply Z.pow_pos_nonneg; lia).
  split.
  - apply Z.div_le_upper_bound; lia.
  - intros Hmod. assert (m <> b * 2 ^ a * 2 ^ n) as Hne.
    { intros ->. apply Hmod. apply Z.mod_mul. lia. }
    assert (m / 2 ^ n < b * 2 ^ a); [|lia].
    apply Z.div_lt_upper_bound; lia.
Qed.

(** A mantissa of [d] digits that represents at most [b * 2^k], with
    [b <= 2^52], has [d - 1 <= 52 + k - e]. *)
Lemma scaled_digits (mx : positive) (ex k b : Z) :
  1 <= b <= 2 ^ 52 -> ex <= k -> Z.pos mx <= b * 2 ^ (k - ex) ->
  Z.pos (digits2_pos mx) - 1 <= 52 + (k - ex).
Proof.
  intros Hb Hex Hmx. pose proof (digits2_pos_bounds mx) as [Hd _].
  apply pow2_le_inv; [lia|]. rewrite Z.pow_add_r by lia.
  assert (0 < 2 ^ (k - ex)) by (apply Z.pow_pos_nonneg; lia).
  assert (b * 2 ^ (k - ex) <= 2 ^ 52 * 2 ^ (k - ex)); [|lia].
  apply Z.mul_le_mono_nonneg_r; lia.
Qed.

(** Rounding a positive mantissa that represents at most [b * 2^k] gives
    zero or a finite number that is still at most [b * 2^k]. *)
Lemma binary_round_aux_le_scaled (sx : bool) (mx : positive) (ex k b : Z) :
  1 <= b <= 2 ^ 52 -> ex <= k -> -1074 <= k -> k <= 971 ->
  Z.pos mx <= b * 2 ^ (k - ex) ->
  match binary_round_aux prec emax sx (Z.pos mx) ex loc_Exact with
  | S754_zero s => s = sx
  | S754_finite s m e => s = sx /\ e <= k /\ Z.pos m <= b * 2 ^ (k - e)
  | _ => False
  end.
Proof.
  intros Hb Hex Hk Hk' Hmx.
  pose proof (scaled_digits mx ex k b Hb Hex Hmx) as Hdk.
  unfold binary_round_aux, shr_fexp. rewrite fexp64. simpl Zdigits2.
  set (e1 := Z.max (Z.pos (digits2_pos mx) + ex - 53) (-1074)).
  assert (e1 <= k) as He1 by lia.
  destruct (Z_le_gt_dec (e1 - ex) 0) as [Hnop|Hshift].
  - rewrite shr_nop by exact Hnop. simpl. rewrite fexp64. simpl Zdigits2. fold e1.
    rewrite shr_nop by exact Hnop. simpl.
    replace (ex <=? emax - prec) with true
      by (symmetry; apply Z.leb_le; unfold emax, prec; lia).
    auto.
  - destruct (shr_spec (Z.pos mx) ex (e1 - ex)) as (mrs1 & -> & Hm1 & Hl1); [lia..|].
    replace (ex + (e1 - ex)) with e1 by lia.
    destruct (scaled_div_le (Z.pos mx) (k - e1) (e1 - ex) b) as [Hfloor Hceil]; [lia..| |].
    { replace (k - e1 + (e1 - ex)) with (k - ex) by lia. exact Hmx. }
    rewrite <- Hm1 in Hfloor, Hceil.
    assert (0 <= shr_m mrs1) as Hm1pos.
    { rewrite Hm1. apply Z.div_pos; [lia|]. apply Z.pow_pos_nonneg; lia. }
    set (m2 := round_nearest_even (shr_m mrs1) (loc_of_shr_record mrs1)).
    assert (0 <= m2 <= b * 2 ^ (k - e1)) as Hm2.
    { destruct (round_nearest_even_cases (shr_m mrs1) (loc_of_shr_record mrs1))
        as [[Heq|Heq] Hexact]; fold m2 in Heq; [lia|].
      destruct (decide (Z.pos mx mod 2 ^ (e1 - ex) = 0)) as [Hmod|Hmod].
      - fold m2 in Hexact. rewrite Hexact by auto. lia.
      - specialize (Hceil Hmod). lia. }
    rewrite fexp64.
    set (e2 := Z.max (Zdigits2 m2 + e1 - 53) (-1074)).
    destruct (Z_le_gt_dec (e2 - e1) 0) as [Hnop2|Hshift2].
    + rewrite shr_nop by exact Hnop2. simpl.
      destruct m2 as [|p2|p2]; [reflexivity| |lia].
      replace (e1 <=? emax - prec) with true
        by (symmetry; apply Z.leb_le; unfold emax, prec; lia).
      split_and!; [reflexivity|exact He1|lia].
    + assert (e2 <= k) as He2.
      { destruct m2 as [|p2|p2]; [simpl in e2; lia| |lia].
        pose proof (scaled_digits p2 e1 k b Hb He1 (proj2 Hm2)). simpl in e2. lia. }
      destruct (shr_spec m2 e1 (e2 - e1)) as (mrs3 & -> & Hm3 & _); [lia..|].
      replace (e1 + (e2 - e1)) with e2 by lia.
      assert (0 < 2 ^ (e2 - e1)) as Hpow by (apply Z.pow_pos_nonneg; lia).
      destruct (scaled_div_le m2 (k - e2) (e2 - e1) b) as [Hfloor3 _]; [lia..| |].
      { replace (k - e2 + (e2 - e1)) with (k - e1) by lia. lia. }
      destruct (shr_m mrs3) as [|p3|p3] eqn:Hp3; [reflexivity| |].
      * replace (e2 <=? emax - prec) with true
          by (symmetry; apply Z.leb_le; unfold emax, prec; lia).
        split_and!; [reflexivity|exact He2|lia].
      * assert (0 <= m2 / 2 ^ (e2 - e1)) by (apply Z.div_pos; lia). lia.
Qed.

(** Normalising a non-negative integer that represents at most [2^k]. *)
Lemma binary_normalize_nonneg_le (z ez k : Z) :
  ez <= k -> -1074 <= k -> k <= 971 -> 0 <= z <= 2 ^ (k - ez) ->
  match binary_normalize prec emax z ez false with
  | S754_zero s => s = false
  | S754_finite s m e => s = false /\ e <= k /\ Z.pos m <= 2 ^ (k - e)
  | _ => False
  end.
Proof.
  intros Hez Hk Hk' [Hz0 Hz]. unfold binary_normalize.
  destruct z as [|p|p]; [reflexivity| |lia].
  exact (binary_round_le false p ez k Hez Hk Hk' Hz).
Qed.

(** Subtracting from one a valid number between 0 and 1 gives zero or a
    positive finite number that is at most one. *)
Lemma SFsub_one_le (x : spec_float) :
  valid_binary x = true ->
  SFleb (S754_zero false) x = true -> SFleb x SF_one = true ->
  match SFsub prec emax SF_one x with
  | S754_zero s => s = false
  | S754_finite s m e => s = false /\ e <= 0 /\ Z.pos m <= 2 ^ (0 - e)
  | _ => False
  end.
Proof.
  intros Hvalid H0 H1. destruct x as [s|s| |s m e].
  - cbn [SFsub SF_one]. rewrite m52_pow2. split_and!; [reflexivity|lia|].
    apply Z.pow_le_mono_r; lia.
  - destruct s; discriminate.
  - discriminate.
  - destruct s; [discriminate|]. clear H0.
    apply finite_le_one in H1 as [He Hm]; [|exact Hvalid].
    destruct (valid_finite_digits _ _ _ Hvalid) as (Hemin & _ & _).
    unfold SF_one. cbn [SFsub cond_Zopp].
    destruct (shl_align_spec m e (Z.min (-52) e)) as [_ Hm'].
    destruct (shl_align_spec m52 (-52) (Z.min (-52) e)) as [_ Hh'].
    rewrite Hm', Hh', m52_pow2.
    set (ez := Z.min (-52) e).
    replace (Z.min e ez) with ez by lia. replace (Z.min (-52) ez) with ez by lia.
    apply binary_normalize_nonneg_le; [lia..|].
    rewrite <- Z.pow_add_r by lia. replace (52 + (-52 - ez)) with (0 - ez) by lia.
    assert (0 < Z.pos m * 2 ^ (e - ez)) as Hpos.
    { apply Z.mul_pos_pos; [lia|]. apply Z.pow_pos_nonneg; lia. }
    assert (Z.pos m * 2 ^ (e - ez) <= 2 ^ (0 - ez)) as Hle.
    { replace (0 - ez) with ((0 - e) + (e - ez)) by lia.
      rewrite Z.pow_add_r by lia. apply Z.mul_le_mono_nonneg_r; [|exact Hm].
      apply Z.pow_nonneg. lia. }
    lia.
Qed.

(** Multiplying by one hundred zero or a positive finite number that is at
    most one gives zero or a positive finite number that is at most one
    hundred, [25 * 2^2]. *)
Lemma SFmul_hundred_le (x : spec_float) :
  match x with
  | S754_zero s => s = false
  | S754_finite s m e => s = false /\ e <= 0 /\ Z.pos m <= 2 ^ (0 - e)
  | _ => False
  end ->
  match SFmul prec emax x SF_hundred with
  | S754_zero s => s = false
  | S754_finite s m e => s = false /\ e <= 2 /\ Z.pos m <= 25 * 2 ^ (2 - e)
  | _ => False
  end.
Proof.
  destruct x as [s|s| |s m e]; [intros ->; reflexivity|intros []..|].
  intros (-> & He & Hm). unfold SF_hundred. cbn [SFmul xorb].
  apply binary_round_aux_le_scaled; [lia..|].
  rewrite Pos2Z.inj_mul, m100_val.
  replace (2 - (e + -46)) with ((0 - e) + 48) by lia.
  rewrite Z.pow_add_r by lia.
  assert (0 <= 2 ^ 48) by (apply Z.pow_nonneg; lia).
  assert (Z.pos m * 2 ^ 48 <= 2 ^ (0 - e) * 2 ^ 48); [|lia].
  apply Z.mul_le_mono_nonneg_r; [lia|exact Hm].
Qed.

(** A valid positive finite number that is at most [25 * 2^2] compares
    [<=] with 100.0. *)
Lemma finite_le_hundred (m : positive) (e : Z) :
  valid_binary (S754_finite false m e) = true ->
  e <= 2 -> Z.pos m <= 25 * 2 ^ (2 - e) ->
  SFleb (S754_finite false m e) SF_hundred = true.
Proof.
  intros Hvalid He Hm. destruct (valid_finite_digits _ _ _ Hvalid) as (Hemin & Hd & Hnormal).
  pose proof (digits2_pos_bounds m) as [Hlo Hhi]. clear Hvalid.
  unfold SF_hundred. rewrite SFleb_finite_pos, m100_val.
  destruct (Z_lt_le_dec e (-46)) as [Hlt|Hge]; [left; exact Hlt|right].
  assert (e = -46) as ->; [|split; [reflexivity|exact Hm]].
  destruct (Z.eq_dec e (-46)) as [Heq|Hne]; [exact Heq|exfalso].
  rewrite Hnormal in Hlo by lia.
  assert (2 ^ (2 - e) <= 2 ^ 47) as Hpow by (apply Z.pow_le_mono_r; lia).
  replace (53 - 1) with (5 + 47) in Hlo by lia.
  rewrite Z.pow_add_r in Hlo by lia.
  assert (0 < 2 ^ 47) by (apply Z.pow_pos_nonneg; lia).
  change (2 ^ 5) with 32 in Hlo. lia.
Qed.

Lemma Prim2SF_hundred : Prim2SF 100 = SF_hundred.
Proof. vm_compute. reflexivity. Qed.

End Binary64Scaled.

(** The vitality score is [(1 - p) * 100]; for every float [p] with
    [0 <= p <= 1] it lies between 0 and 100, roundings included. *)
Theorem vitality_score_range (p : float) :
  vitality_score_of (get_risk_metadata p) = ((1 - p) * 100)%float ∧
  ((0 <=? p)%float = true → (p <=? 1)%float = true →
   (0 <=? vitality_score_of (get_risk_metadata p))%float = true ∧
   (vitality_score_of (get_risk_metadata p) <=? 100)%float = true).
Proof.
  assert (vitality_score_of (get_risk_metadata p) = ((1 - p) * 100)%float) as Hvit.
  { unfold get_risk_metadata, vitality_score_of.
    destruct (p <? 0.3)%float; [reflexivity|]. destruct (p <? 0.7)%float; reflexivity. }
  split; [exact Hvit|]. rewrite Hvit. clear Hvit. rewrite !leb_spec. intros H0 H1.
  pose proof (Prim2SF_valid ((1 - p) * 100)%float) as Hvalid.
  rewrite mul_spec, sub_spec in *.
  rewrite Prim2SF_zero, Prim2SF_one, Prim2SF_hundred in *.
  pose proof (SFmul_hundred_le _ (SFsub_one_le _ (Prim2SF_valid p) H0 H1)) as Hc.
  unfold SF64mul, SF64sub in *.
  destruct (SFmul prec emax _ SF_hundred) as [s|s| |s m e]; try contradiction.
  - subst s. split; reflexivity.
  - destruct Hc as (-> & He & Hm). split; [reflexivity|].
    apply finite_le_hundred; assumption.
Qed.

Lemma vitality_score_range_witness :
  ((0 <=? 0.62)%float = true ∧ (0.62 <=? 1)%float = true) ∧
  (0 <=? vitality_score_of (get_risk_metadata 0.62))%float = true ∧
  (vitality_score_of (get_risk_metadata 0.62) <=? 100)%float = true.
Proof.
  split; [split; reflexivity|].
  exact (proj2 (vitality_score_range 0.62) eq_refl eq_refl).
Defined.
